(** * neuralgraph-site: the API proxy and the service worker

    A shallow embedding of the Cloud Function ([api], [verifyAuth],
    [isPathAllowed], [enforceSpaceIds], [extractSpaceIdFromPath],
    [handleProxy], [handleCreateSpace], [handleChat], [chatAzureOpenAI];
    the TypeScript source that follows src/scripts/create-user.sh, lines
    449-818) and of the service worker's install, activate and fetch
    listeners (src/public/sw.js), with the properties the specification
    states about them and further properties read off the code.

    Conventions.
    - JavaScript strings are [string]s (bytes).  '/' never occurs inside a
      multi-byte UTF-8 sequence, so the path patterns read the same on bytes
      as on UTF-16 code units.
    - A thrown [Error] is [Throw msg], [msg] being the error's [message].
    - Side effects of a handler (the upstream [fetch], [res.set],
      [res.status(..).json(..)]) are recorded, in order, in a trace of
      [event]s.
    - External collaborators (Firebase's [verifyIdToken], the secret store,
      the upstream API, [JSON.parse]) are the fields of a [World]. *)

From Stdlib Require Import String Ascii List Bool Arith Lia.
From Stdlib Require Import DecimalString.
From stdpp Require Import base option list gmap strings.

Import ListNotations.
Local Open Scope string_scope.
Local Open Scope list_scope.

(** ** JavaScript string primitives *)

Module JsString.

(** [s.startsWith(p)] *)
Definition startsWith (s p : string) : bool := String.prefix p s.

(** [s.includes(sub)]: [sub] occurs at some offset of [s]. *)
Fixpoint includes (s sub : string) : bool :=
  if String.prefix sub s then true
  else match s with
       | EmptyString => false
       | String _ s' => includes s' sub
       end.

(** [s.slice(n)] for [0 <= n]: drops the first [n] characters. *)
Fixpoint slice (n : nat) (s : string) : string :=
  match n, s with
  | O, _ => s
  | S _, EmptyString => EmptyString
  | S n', String _ s' => slice n' s'
  end.

(** If [s] starts with [p], what follows [p]. *)
Fixpoint strip_prefix (p s : string) : option string :=
  match p, s with
  | EmptyString, _ => Some s
  | String a p', String b s' =>
      if Ascii.eqb a b then strip_prefix p' s' else None
  | String _ _, EmptyString => None
  end.

(** [String(n)] for a non-negative integer. *)
Definition of_nat (n : nat) : string :=
  NilZero.string_of_uint (Nat.to_uint n).

(** [xs.join(sep)] on strings. *)
Fixpoint join (sep : string) (xs : list string) : string :=
  match xs with
  | [] => ""
  | [x] => x
  | x :: rest => x +:+ sep +:+ join sep rest
  end.

End JsString.

(** ** JSON values

    Request bodies are what the platform's body parser produced.  An
    object is a finite map from its keys; a number is carried by its
    rendering under [Number.prototype.toString], which is all this code
    ever observes of it. *)

#[local] Set Warnings "-register-all".

Inductive json : Type :=
| JNull
| JBool (b : bool)
| JNum (lit : string)
| JStr (s : string)
| JArr (items : list json)
| JObj (fields : gmap string json).

(** [o[k]] on a parsed value: the field of an object, [undefined] ([None])
    otherwise.  Neither arrays nor primitives have a [space_id] or
    [space_ids] property. *)
Definition get_prop (j : json) (k : string) : option json :=
  match j with
  | JObj fields => fields !! k
  | _ => None
  end.

(** The string an array element contributes to [Array.prototype.join]:
    [null] gives the empty string, anything else its [ToString]. *)
Fixpoint join_text (j : json) : string :=
  match j with
  | JNull => ""
  | JBool true => "true"
  | JBool false => "false"
  | JNum lit => lit
  | JStr s => s
  | JArr items =>
      (fix commas (l : list json) : string :=
         match l with
         | [] => ""
         | [x] => join_text x
         | x :: rest => join_text x +:+ "," +:+ commas rest
         end) items
  | JObj _ => "[object Object]"
  end.

(** ** Exceptions *)

Inductive outcome (A : Type) : Type :=
| Return (a : A)
| Throw (msg : string).
Arguments Return {A} a.
Arguments Throw {A} msg.

#[export] Instance outcome_ret : MRet outcome := @Return.
#[export] Instance outcome_bind : MBind outcome :=
  fun A B (k : A -> outcome B) (o : outcome A) =>
    match o with
    | Return a => k a
    | Throw msg => Throw msg
    end.

(** ** Path patterns

    Every pattern of the proxy is a sequence of literal pieces and
    [[^/]+] segments.  A [[^/]+] is always followed by a '/' or by the
    end of the pattern, so the only run it can match is the maximal run of
    non-slash characters: matching needs no backtracking. *)

Inductive tok : Type :=
| Lit (s : string)
| Seg.

Definition is_slash (a : ascii) : bool := Ascii.eqb a "/"%char.

(** The maximal prefix without '/', and the rest. *)
Fixpoint span_seg (s : string) : string * string :=
  match s with
  | EmptyString => (EmptyString, EmptyString)
  | String a s' =>
      if is_slash a then (EmptyString, s)
      else let '(w, r) := span_seg s' in (String a w, r)
  end.

(** [s] has no '/'. *)
Fixpoint no_slash (s : string) : bool :=
  match s with
  | EmptyString => true
  | String a s' => negb (is_slash a) && no_slash s'
  end.

(** [/^ts$/.test(s)] *)
Fixpoint match_toks (ts : list tok) (s : string) : bool :=
  match ts with
  | [] => String.eqb s ""
  | Lit p :: ts' =>
      match JsString.strip_prefix p s with
      | Some r => match_toks ts' r
      | None => false
      end
  | Seg :: ts' =>
      let '(w, r) := span_seg s in
      if String.eqb w "" then false else match_toks ts' r
  end.

(** The rest of a string after a maximal slash-free run: nothing, or
    something that starts with '/'. *)
Definition delimited (r : string) : Prop :=
  r = "" \/ exists r', r = String "/" r'.

(** What the regular expression [/^ts$/] means: the string is spelled by
    the pieces in turn, a [[^/]+] standing for any non-empty run of
    characters other than '/'. *)
Inductive spells : list tok -> string -> Prop :=
| spells_end : spells [] ""
| spells_lit (p : string) (ts : list tok) (r : string) :
    spells ts r -> spells (Lit p :: ts) (p +:+ r)
| spells_seg (w : string) (ts : list tok) (r : string) :
    w <> "" -> no_slash w = true -> spells ts r -> spells (Seg :: ts) (w +:+ r).

(** Every [[^/]+] of the pattern is followed by the end or by a literal
    that starts with '/'. *)
Fixpoint segs_delimited (ts : list tok) : bool :=
  match ts with
  | [] => true
  | Lit _ :: rest => segs_delimited rest
  | Seg :: rest =>
      match rest with
      | [] => true
      | Lit (String a _) :: _ => is_slash a
      | _ => false
      end && segs_delimited rest
  end.

(** ** The proxy (Cloud Function source, src/scripts/create-user.sh lines 449-818) *)

Module Proxy.

Definition NG_API_BASE : string := "https://api.neuralgraph.app".

Record rule : Type := { rule_method : string; rule_pattern : list tok }.

(** Whitelisted NeuralGraph API paths *)
Definition ALLOWED_PATHS : list rule :=
  [ (* Health *)
    {| rule_method := "GET";  rule_pattern := [Lit "/v1/health"] |};
    (* Spaces *)
    {| rule_method := "POST"; rule_pattern := [Lit "/v1/spaces"] |};
    {| rule_method := "GET";  rule_pattern := [Lit "/v1/spaces/"; Seg] |};
    (* Ingestion *)
    {| rule_method := "POST"; rule_pattern := [Lit "/v1/spaces/"; Seg; Lit "/ingest"] |};
    (* Hydration *)
    {| rule_method := "POST"; rule_pattern := [Lit "/v1/hydrate"] |};
    (* Feedback *)
    {| rule_method := "POST"; rule_pattern := [Lit "/v1/feedback"] |};
    (* Jobs *)
    {| rule_method := "GET";  rule_pattern := [Lit "/v1/jobs"] |};
    {| rule_method := "GET";  rule_pattern := [Lit "/v1/jobs/"; Seg] |};
    (* Profiles *)
    {| rule_method := "GET";  rule_pattern := [Lit "/v1/profiles/"; Seg] |};
    {| rule_method := "PUT";  rule_pattern := [Lit "/v1/profiles/"; Seg; Lit "/user"] |};
    {| rule_method := "PUT";  rule_pattern := [Lit "/v1/profiles/"; Seg; Lit "/ai"] |};
    {| rule_method := "GET";  rule_pattern := [Lit "/v1/profiles/"; Seg; Lit "/ai/spaces/"; Seg] |};
    {| rule_method := "PUT";  rule_pattern := [Lit "/v1/profiles/"; Seg; Lit "/ai/spaces/"; Seg] |} ].

Definition isPathAllowed (method path : string) : bool :=
  existsb
    (fun r => String.eqb (rule_method r) method && match_toks (rule_pattern r) path)
    ALLOWED_PATHS.

(** [allowedSpaceIds.includes(v)] for a [string[]] and any value:
    [includes] compares with SameValueZero, so only a string can be found. *)
Definition includes_id (allowed : list string) (v : json) : bool :=
  match v with
  | JStr s => existsb (String.eqb s) allowed
  | _ => false
  end.

(** [v] is one of the caller's space ids. *)
Definition in_allowed (allowed : list string) (v : json) : Prop :=
  exists s, v = JStr s /\ In s allowed.

Definition enforceSpaceIds (body : json) (allowedSpaceIds : list string) : outcome unit :=
  _ ← match get_prop body "space_ids" with
      | Some (JArr requested) =>
          let disallowed :=
            List.filter (fun id => negb (includes_id allowedSpaceIds id)) requested in
          if Nat.ltb 0 (List.length disallowed) then
            Throw ("Access denied to space(s): "
                     +:+ JsString.join ", " (List.map join_text disallowed))
          else Return tt
      | _ => Return tt
      end;
  match get_prop body "space_id" with
  | Some (JStr space_id) =>
      if negb (includes_id allowedSpaceIds (JStr space_id)) then
        Throw ("Access denied to space: " +:+ space_id)
      else Return tt
  | _ => Return tt
  end.

(** [path.match(/^\/v1\/spaces\/([^/]+)\//)]: the first capture group, or
    [null]. *)
Definition extractSpaceIdFromPath (path : string) : option string :=
  match JsString.strip_prefix "/v1/spaces/" path with
  | Some r =>
      let '(w, rest) := span_seg r in
      if String.eqb w "" then None
      else match rest with
           | String a _ => if is_slash a then Some w else None
           | EmptyString => None
           end
  | None => None
  end.

(** *** Requests, claims and the outside world *)

Record UserClaims : Type :=
  { ngTenant : string; ngUserId : string; ngSpaceIds : list string }.

(** The custom claims of a verified ID token, typed as [UserClaims]
    types them and as scripts/create-user.sh sets them; each may be
    absent. *)
Record DecodedToken : Type :=
  { tok_ngTenant : option string;
    tok_ngUserId : option string;
    tok_ngSpaceIds : option (list string) }.

(** An inbound request: header names are lower-cased by the platform;
    [body = None] is [undefined]. *)
Record Request : Type :=
  { method : string; headers : gmap string string; body : option json }.

(** What [fetch(url, fetchOptions)] is called with.  [up_body] is the
    value handed to [JSON.stringify], [None] when no body is set. *)
Record UpstreamRequest : Type :=
  { up_url : string;
    up_method : string;
    up_headers : list (string * string);
    up_body : option json }.

Record UpstreamResponse : Type := { up_status : nat; up_text : string }.

Record World : Type :=
  { (* getAuth().verifyIdToken(token): rejects with an Error or resolves *)
    verifyIdToken : string -> outcome DecodedToken;
    (* ngApiKey.value() *)
    ngApiKey : string;
    (* fetch(..) followed by upstream.text(): rejects or resolves *)
    fetch : UpstreamRequest -> outcome UpstreamResponse;
    (* JSON.parse: None is a SyntaxError *)
    JSON_parse : string -> option json }.

(** The handler's observable actions, in order. *)
Inductive event : Type :=
| Fetch (r : UpstreamRequest)
| SetHeaders (hs : list (string * string))
| Respond (status : nat) (payload : json).

(** Truthiness of an optional string claim: absent and [""] are falsy. *)
Definition truthy (o : option string) : bool :=
  match o with
  | Some s => negb (String.eqb s "")
  | None => false
  end.

Definition verifyAuth (w : World) (req : Request) : outcome UserClaims :=
  match headers req !! "authorization" with
  | Some authHeader =>
      if JsString.startsWith authHeader "Bearer " then
        let token := JsString.slice 7 authHeader in
        decoded ← verifyIdToken w token;
        match tok_ngTenant decoded, tok_ngUserId decoded, tok_ngSpaceIds decoded with
        | Some t, Some u, Some ids =>
            if truthy (Some t) && truthy (Some u) then
              Return {| ngTenant := t; ngUserId := u; ngSpaceIds := ids |}
            else Throw "Missing sandbox claims — contact admin for access"
        | _, _, _ => Throw "Missing sandbox claims — contact admin for access"
        end
      else Throw "Missing or invalid Authorization header"
  | None => Throw "Missing or invalid Authorization header"
  end.

(** [typeof req.body === "object" && req.body !== null ? req.body : {}] *)
Definition body_object (b : option json) : json :=
  match b with
  | Some (JObj fields) => JObj fields
  | Some (JArr items) => JArr items
  | _ => JObj ∅
  end.

Definition error_payload (message : string) : json :=
  JObj {[ "error" := JStr message ]}.

(** The status the [catch] block picks from the error's message. *)
Definition status_of_message (message : string) : nat :=
  if JsString.includes message "Access denied" || JsString.includes message "not allowed"
  then 403
  else if JsString.includes message "Missing" || JsString.includes message "invalid"
  then 401
  else 500.

(** [pathSpaceId && !claims.ngSpaceIds.includes(pathSpaceId)] *)
Definition path_space_denied (pathSpaceId : option string) (claims : UserClaims) : bool :=
  match pathSpaceId with
  | Some id => negb (String.eqb id "") && negb (existsb (String.eqb id) (ngSpaceIds claims))
  | None => false
  end.

Definition upstream_headers (w : World) (claims : UserClaims) : list (string * string) :=
  [ ("X-API-Key", ngApiKey w);
    ("Content-Type", "application/json");
    ("X-User-ID", ngUserId claims);
    ("X-Tenant-ID", ngTenant claims) ].

Definition fetchOptions (w : World) (req : Request) (path : string)
    (claims : UserClaims) (b : json) : UpstreamRequest :=
  {| up_url := NG_API_BASE +:+ path;
     up_method := method req;
     up_headers := upstream_headers w claims;
     up_body :=
       if negb (String.eqb (method req) "GET") && negb (String.eqb (method req) "HEAD")
       then Some b else None |}.

(** Relaying the upstream's answer. *)
Definition relay (w : World) (upstream : UpstreamResponse) : list event :=
  SetHeaders [("Content-Type", "application/json")] ::
  (if String.eqb (up_text upstream) "" then
     [Respond (up_status upstream) (JObj ∅)]
   else
     match JSON_parse w (up_text upstream) with
     | Some parsed => [Respond (up_status upstream) parsed]
     | None =>
         [Respond (up_status upstream)
            (error_payload ("Upstream returned non-JSON (HTTP "
                              +:+ JsString.of_nat (up_status upstream) +:+ ")"))]
     end).

(** The [try] block of [handleProxy]: the events it caused, and whether it
    ended normally or threw. *)
Definition handleProxy_try (w : World) (req : Request) (path : string)
    : list event * outcome unit :=
  match verifyAuth w req with
  | Throw msg => ([], Throw msg)
  | Return claims =>
      if negb (isPathAllowed (method req) path) then
        ([Respond 403 (error_payload "Endpoint not allowed")], Return tt)
      else if path_space_denied (extractSpaceIdFromPath path) claims then
        ([Respond 403
            (error_payload ("Access denied to space: "
                              +:+ default "" (extractSpaceIdFromPath path)))],
         Return tt)
      else
        let b := body_object (body req) in
        match enforceSpaceIds b (ngSpaceIds claims) with
        | Throw msg => ([], Throw msg)
        | Return _ =>
            let options := fetchOptions w req path claims b in
            match fetch w options with
            | Throw msg => ([Fetch options], Throw msg)
            | Return upstream => (Fetch options :: relay w upstream, Return tt)
            end
        end
  end.

Definition handleProxy (w : World) (req : Request) (path : string) : list event :=
  match handleProxy_try w req path with
  | (evs, Return _) => evs
  | (evs, Throw message) =>
      evs ++ [Respond (status_of_message message) (error_payload message)]
  end.

(** The upstream API was contacted. *)
Definition contacted (evs : list event) : bool :=
  existsb (fun e => match e with Fetch _ => true | _ => false end) evs.

End Proxy.

(** ** The service worker's fetch listener (src/public/sw.js, lines 27-50) *)

Module ServiceWorker.

Definition CACHE_NAME : string := "ng-sandbox-v1".

(** A response is identified by its content. *)
Definition Response : Type := string.

(** A fetch event: the parts of [new URL(event.request.url)] the listener
    reads, the request's destination, and the request as a cache key. *)
Record FetchEvent : Type :=
  { url_pathname : string;
    url_hostname : string;
    destination : string;
    request : string }.

(** Cache storage: the named caches, each from request to response. *)
Definition CacheStorage : Type := gmap string (gmap string Response).

(** [caches.match(request)]: a response stored for the request in some
    cache, or [undefined]. *)
Definition caches_match (caches : CacheStorage) (req : string) : option Response :=
  match List.filter (fun c => bool_decide (is_Some (c.2 !! req))) (map_to_list caches) with
  | c :: _ => c.2 !! req
  | [] => None
  end.

(** [caches.open(name).then(cache => cache.put(request, response))] *)
Definition cache_put (caches : CacheStorage) (name req : string) (resp : Response)
    : CacheStorage :=
  <[name := <[req := resp]> (default ∅ (caches !! name))]> caches.

Inductive effect : Type :=
| CachesMatch (req : string)
| NetworkFetch (req : string)
| CachePut (name req : string) (resp : Response).

(** What the page gets: the browser's own handling when [respondWith]
    was not called, else the settled value of the promise given to it
    ([Failed] for a rejection or [undefined]). *)
Inductive reply : Type :=
| NotIntercepted
| Replied (resp : Response)
| Failed.

Record result : Type :=
  { answer : reply; effects : list effect; caches_after : CacheStorage }.

Definition settle (o : option Response) : reply :=
  match o with
  | Some r => Replied r
  | None => Failed
  end.

(** [network req = None] is a rejected [fetch]. *)
Definition on_fetch (network : string -> option Response)
    (caches : CacheStorage) (event : FetchEvent) : result :=
  (* Never cache API calls or Firebase auth *)
  if JsString.startsWith (url_pathname event) "/api"
     || JsString.includes (url_hostname event) "googleapis"
  then {| answer := NotIntercepted; effects := []; caches_after := caches |}
  else
    let cached := caches_match caches (request event) in
    (* Network-first for HTML, cache-first for assets *)
    if String.eqb (destination event) "document" then
      match network (request event) with
      | Some response =>
          {| answer := Replied response;
             effects := [CachesMatch (request event); NetworkFetch (request event);
                         CachePut CACHE_NAME (request event) response];
             caches_after := cache_put caches CACHE_NAME (request event) response |}
      | None =>
          {| answer := settle cached;
             effects := [CachesMatch (request event); NetworkFetch (request event)];
             caches_after := caches |}
      end
    else
      match cached with
      | Some c =>
          {| answer := Replied c;
             effects := [CachesMatch (request event)];
             caches_after := caches |}
      | None =>
          {| answer := settle (network (request event));
             effects := [CachesMatch (request event); NetworkFetch (request event)];
             caches_after := caches |}
      end.

End ServiceWorker.

(** ** The tenant key field (TENANT_ENCRYPTION.md, Request Flow)

    The design has the client send the tenant key in the [X-Encryption-Key]
    header of every request.  The proxy is the inbound interface of the
    site; these definitions say what it is given and what it answers. *)

Module KeyField.
Import Proxy.

(** The wire name of the key field, as the platform presents it. *)
Definition KEY_FIELD : string := "x-encryption-key".

Definition with_key (k : string) (req : Request) : Request :=
  {| method := method req;
     headers := <[KEY_FIELD := k]> (headers req);
     body := body req |}.

Definition without_key (req : Request) : Request :=
  {| method := method req;
     headers := delete KEY_FIELD (headers req);
     body := body req |}.

Definition lacks_key (req : Request) : bool :=
  bool_decide (headers req !! KEY_FIELD = None).

(** The handler answered with an HTTP error status. *)
Definition rejected (evs : list event) : bool :=
  existsb (fun e => match e with Respond status _ => Nat.leb 400 status | _ => false end) evs.

End KeyField.

(** ** A concrete deployment, for evaluating the handlers *)

Module Scenario.
Import Proxy.

(** Alice's custom claims: one space of her own. *)
Definition alice_token : DecodedToken :=
  {| tok_ngTenant := Some "tenant-1";
     tok_ngUserId := Some "alice-uid";
     tok_ngSpaceIds := Some ["alice-space"] |}.

Definition alice_claims : UserClaims :=
  {| ngTenant := "tenant-1"; ngUserId := "alice-uid"; ngSpaceIds := ["alice-space"] |}.

(** Firebase accepts Alice's token and rejects any other as expired; the
    upstream answers every call with 200 and an empty JSON object. *)
Definition deployment : World :=
  {| verifyIdToken := fun token =>
       if String.eqb token "alice-id-token" then Return alice_token
       else Throw "Firebase ID token has expired. Get a fresh ID token from your client app and try again (auth/id-token-expired).";
     ngApiKey := "ng-api-key";
     fetch := fun _ => Return {| up_status := 200; up_text := "{}" |};
     JSON_parse := fun text => if String.eqb text "{}" then Some (JObj ∅) else None |}.

(** [GET /api/v1/spaces/bob-space] by Alice: a space that is not hers. *)
Definition get_bob_space : Request :=
  {| method := "GET";
     headers := {[ "authorization" := "Bearer alice-id-token" ]};
     body := None |}.

(** [POST /api/v1/hydrate] by Alice, with no [X-Encryption-Key] header. *)
Definition hydrate_without_key : Request :=
  {| method := "POST";
     headers := {[ "authorization" := "Bearer alice-id-token" ]};
     body := Some (JObj {[ "space_ids" := JArr [JStr "alice-space"]; "query" := JStr "Paris trip" ]}) |}.

(** A request whose token Firebase rejects. *)
Definition stale_token_request : Request :=
  {| method := "GET";
     headers := {[ "authorization" := "Bearer stale-id-token" ]};
     body := None |}.

End Scenario.

(** ** The Pending Action Queue (specification sections 3 and 4.4)

    The repository holds no queue; TENANT_ENCRYPTION.md only plans a
    [pending_actions] table.  The definitions of this module are written
    from the specification's description of the queue. *)

Module PendingActionQueue.

(** Modelled from the spec: the status of a Pending Action,
    "status (pending | in-progress | done | failed)". *)
Inductive Status : Type := pending | in_progress | done | failed.

#[export] Instance Status_eq_dec : EqDecision Status.
Proof. solve_decision. Defined.

(** Modelled from the spec: the action kinds, "merge-execution |
    re-extraction | anchor-regeneration". *)
Inductive ActionKind : Type := merge_execution | re_extraction | anchor_regeneration.

(** Modelled from the spec: the Pending Action record, "tenant identifier,
    action kind, target entity identifier(s), enqueue timestamp, status,
    attempt count". *)
Record PendingAction : Type :=
  { tenant_id : string;
    kind : ActionKind;
    target_ids : list string;
    enqueued_at : nat;
    status : Status;
    attempt_count : nat }.

Definition set_status (st : Status) (a : PendingAction) : PendingAction :=
  {| tenant_id := tenant_id a; kind := kind a; target_ids := target_ids a;
     enqueued_at := enqueued_at a; status := st; attempt_count := attempt_count a |}.

Definition set_attempt_count (n : nat) (a : PendingAction) : PendingAction :=
  {| tenant_id := tenant_id a; kind := kind a; target_ids := target_ids a;
     enqueued_at := enqueued_at a; status := status a; attempt_count := n |}.

(** Modelled from the spec: the queue is the list of actions in enqueue
    order; an action's id is its position, and an action that is done stays
    in the list, archived.  [claimAll] takes a tenant's pending actions. *)
Definition claimable (tenant : string) (a : PendingAction) : Prop :=
  tenant_id a = tenant /\ status a = pending.

#[export] Instance claimable_dec tenant a : Decision (claimable tenant a).
Proof. unfold claimable. apply _. Defined.

(** Modelled from the spec: [enqueue(tenantId, kind, targetIds)] creates
    the action pending, with no attempt made. *)
Definition enqueue (now : nat) (tenant : string) (k : ActionKind) (targets : list string)
    (q : list PendingAction) : list PendingAction :=
  q ++ [ {| tenant_id := tenant; kind := k; target_ids := targets;
            enqueued_at := now; status := pending; attempt_count := 0 |} ].

(** Modelled from the spec: [claimAll(tenantId)] "atomically transitions a
    tenant's pending actions to in-progress and returns them", in enqueue
    order, each with its id. *)
Definition claim (tenant : string) (a : PendingAction) : PendingAction :=
  if decide (claimable tenant a) then set_status in_progress a else a.

Definition claimAll (tenant : string) (q : list PendingAction)
    : list (nat * PendingAction) * list PendingAction :=
  (prod_map id (set_status in_progress)
     <$> filter (fun p => claimable tenant p.2) (imap pair q),
   claim tenant <$> q).

(** Modelled from the spec: [markDone(actionId)], the transition
    "in-progress -> done on success". *)
Definition markDone (id : nat) (q : list PendingAction) : list PendingAction :=
  alter (fun a => if decide (status a = in_progress) then set_status done a else a) id q.

(** Modelled from the spec: [markFailed(actionId)] "increments attempt
    count and returns the action to pending; a configurable maximum attempt
    count, once exceeded, moves the action to a terminal failed state".  It
    acts on an action that was claimed (in-progress), as the lifecycle has
    it. *)
Definition fail_once (max_attempts : nat) (a : PendingAction) : PendingAction :=
  let n := S (attempt_count a) in
  set_status (if decide (n <= max_attempts) then pending else failed)
    (set_attempt_count n a).

Definition markFailed (max_attempts : nat) (id : nat) (q : list PendingAction)
    : list PendingAction :=
  alter (fun a => if decide (status a = in_progress) then fail_once max_attempts a else a) id q.

(** The queue's operations, and a history of them. *)
Inductive op : Type :=
| Enqueue (now : nat) (tenant : string) (k : ActionKind) (targets : list string)
| ClaimAll (tenant : string)
| MarkDone (id : nat)
| MarkFailed (id : nat).

Definition step (max_attempts : nat) (q : list PendingAction) (o : op) : list PendingAction :=
  match o with
  | Enqueue now tenant k targets => enqueue now tenant k targets q
  | ClaimAll tenant => (claimAll tenant q).2
  | MarkDone id => markDone id q
  | MarkFailed id => markFailed max_attempts id q
  end.

Definition run (max_attempts : nat) (ops : list op) (q : list PendingAction)
    : list PendingAction :=
  fold_left (step max_attempts) ops q.

(** The ids [claimAll] hands out. *)
Definition claimed_ids (tenant : string) (q : list PendingAction) : list nat :=
  fst <$> (claimAll tenant q).1.

(** A merge that tenant-1's runner has claimed, after three failed
    attempts. *)
Definition stuck_merge : PendingAction :=
  {| tenant_id := "tenant-1";
     kind := merge_execution;
     target_ids := ["topic-a"; "topic-b"];
     enqueued_at := 10;
     status := in_progress;
     attempt_count := 3 |}.

End PendingActionQueue.

(** ** Reading a handler's trace *)

Module Trace.
Import Proxy.

Definition is_respond (e : event) : bool :=
  match e with Respond _ _ => true | _ => false end.

Definition is_fetch (e : event) : bool :=
  match e with Fetch _ => true | _ => false end.

(** The responses sent, and the upstream calls made, in order. *)
Definition responses (evs : list event) : list event := List.filter is_respond evs.
Definition upstream_calls (evs : list event) : list event := List.filter is_fetch evs.

(** What the caller receives for an upstream answer: the parsed JSON, [{}]
    for an empty body, an error object for a body that is not JSON. *)
Definition relayed_payload (w : World) (up : UpstreamResponse) : json :=
  if String.eqb (up_text up) "" then JObj ∅
  else match JSON_parse w (up_text up) with
       | Some parsed => parsed
       | None =>
           error_payload ("Upstream returned non-JSON (HTTP "
                            +:+ JsString.of_nat (up_status up) +:+ ")")
       end.

End Trace.

(** ** JavaScript values at large *)

Module Js.

(** Truthiness of a parsed value: [null], [false], [0], [NaN] and [""]
    are falsy. *)
Definition truthy (j : json) : bool :=
  match j with
  | JNull => false
  | JBool b => b
  | JNum lit => negb (String.eqb lit "0") && negb (String.eqb lit "NaN")
  | JStr s => negb (String.eqb s "")
  | JArr _ | JObj _ => true
  end.

(** [v || d], [v = None] being [undefined]. *)
Definition or_else (v : option json) (d : json) : json :=
  match v with
  | Some j => if truthy j then j else d
  | None => d
  end.

(** The message of the TypeError that Node 20 (the runtime the setup
    guide asks for) raises when a property of [undefined] or [null] is
    read. *)
Definition type_error (what prop : string) : string :=
  "Cannot read properties of " +:+ what +:+ " (reading '" +:+ prop +:+ "')".

(** [x.k] for a value that may be [undefined] ([None]) or [null]. *)
Definition read_prop (x : option json) (k : string) : outcome (option json) :=
  match x with
  | None => Throw (type_error "undefined" k)
  | Some JNull => Throw (type_error "null" k)
  | Some j => Return (get_prop j k)
  end.

End Js.

(** ** The chat endpoint ([chatAzureOpenAI], [handleChat]; source lines
    561-591 and 785-818) *)

Module Chat.
Import Proxy.

Definition AZURE_MODEL : string := "gpt-4o".

(** One entry of the [messages] given to the completion API: [role] and
    [content] as read from the element ([None] is [undefined]). *)
Record Message : Type := { msg_role : option json; msg_content : option json }.

(** What [client.chat.completions.create] is called with, and the client
    it is called on. *)
Record CompletionRequest : Type :=
  { cr_apiKey : string;
    cr_baseURL : string;
    cr_api_version : string;
    cr_model : string;
    cr_max_tokens : nat;
    cr_messages : list Message }.

Record ChatWorld : Type :=
  { (* azureOpenaiApiKey.value(), azureOpenaiEndpoint.value() *)
    azureOpenaiApiKey : string;
    azureOpenaiEndpoint : string;
    (* client.chat.completions.create(..): rejects, or resolves to a response
       of which the code reads choices[0]?.message?.content (None when that
       is undefined or null) *)
    completions_create : CompletionRequest -> outcome (option string) }.

Inductive event : Type :=
| Completion (r : CompletionRequest)
| Respond (status : nat) (payload : json).

(** [messages.map((m) => ({ role: m.role, content: m.content }))]: reading
    [m.role] throws on a [null] element. *)
Fixpoint convert (messages : list json) : outcome (list Message) :=
  match messages with
  | [] => Return []
  | m :: rest =>
      role ← Js.read_prop (Some m) "role";
      content ← Js.read_prop (Some m) "content";
      rest' ← convert rest;
      Return ({| msg_role := role; msg_content := content |} :: rest')
  end.

Definition system_message (systemPrompt : json) : Message :=
  {| msg_role := Some (JStr "system"); msg_content := Some systemPrompt |}.

Definition completion_request (cw : ChatWorld) (systemPrompt : json)
    (converted : list Message) : CompletionRequest :=
  {| cr_apiKey := azureOpenaiApiKey cw;
     cr_baseURL := azureOpenaiEndpoint cw +:+ "/openai/deployments/" +:+ AZURE_MODEL;
     cr_api_version := "2024-10-21";
     cr_model := AZURE_MODEL;
     cr_max_tokens := 4096;
     cr_messages := system_message systemPrompt :: converted |}.

(** The [ChatResponse] object. *)
Definition chat_response (content : string) : json :=
  JObj {[ "content" := JStr content;
          "provider" := JStr "azure_openai";
          "model" := JStr AZURE_MODEL ]}.

Definition chatAzureOpenAI (cw : ChatWorld) (systemPrompt : json) (messages : list json)
    : list event * outcome json :=
  match convert messages with
  | Throw msg => ([], Throw msg)
  | Return converted =>
      let r := completion_request cw systemPrompt converted in
      match completions_create cw r with
      | Throw msg => ([Completion r], Throw msg)
      | Return content => ([Completion r], Return (chat_response (default "" content)))
      end
  end.

(** The status the [catch] block of [handleChat] picks. *)
Definition status_of_message (message : string) : nat :=
  if JsString.includes message "Missing" || JsString.includes message "invalid"
  then 401 else 500.

Definition handleChat_try (w : World) (cw : ChatWorld) (req : Request)
    : list event * outcome unit :=
  if negb (String.eqb (method req) "POST") then
    ([Respond 405 (error_payload "Method not allowed")], Return tt)
  else
    match verifyAuth w req with
    | Throw msg => ([], Throw msg)
    | Return _ =>
        match Js.read_prop (body req) "messages" with
        | Throw msg => ([], Throw msg)
        | Return (Some (JArr messages)) =>
            match Js.read_prop (body req) "system_prompt" with
            | Throw msg => ([], Throw msg)
            | Return system_prompt =>
                match chatAzureOpenAI cw (Js.or_else system_prompt (JStr "")) messages with
                | (evs, Throw msg) => (evs, Throw msg)
                | (evs, Return result) => (evs ++ [Respond 200 result], Return tt)
                end
            end
        | Return _ =>
            ([Respond 400 (error_payload "messages array is required")], Return tt)
        end
    end.

Definition handleChat (w : World) (cw : ChatWorld) (req : Request) : list event :=
  match handleChat_try w cw req with
  | (evs, Return _) => evs
  | (evs, Throw message) =>
      evs ++ [Respond (status_of_message message) (error_payload message)]
  end.

Definition is_respond (e : event) : bool :=
  match e with Respond _ _ => true | _ => false end.

Definition is_completion (e : event) : bool :=
  match e with Completion _ => true | _ => false end.

End Chat.

(** ** Creating a space ([handleCreateSpace]; source lines 697-783) *)

Module CreateSpace.
Import Proxy.

(** The object given to [setCustomUserClaims]. *)
Record NewClaims : Type :=
  { nc_ngTenant : string; nc_ngUserId : string; nc_ngSpaceIds : list json }.

Record AdminWorld : Type :=
  { (* decoded.uid of the decoded ID token, by token *)
    uid_of_token : string -> string;
    (* getAuth().setCustomUserClaims(uid, claims): rejects or resolves *)
    setCustomUserClaims : string -> NewClaims -> outcome unit }.

Inductive event : Type :=
| Fetch (r : UpstreamRequest)
| SetClaims (uid : string) (claims : NewClaims)
| SetHeaders (hs : list (string * string))
| Respond (status : nat) (payload : json).

(** Who is calling: the token's uid and its claims, [ngSpaceIds]
    defaulting to the empty list. *)
Record Caller : Type :=
  { caller_uid : string; caller_claims : UserClaims }.

Definition authenticate (w : World) (aw : AdminWorld) (req : Request) : outcome Caller :=
  let authHeader := default "" (headers req !! "authorization") in
  if JsString.startsWith authHeader "Bearer " then
    let token := JsString.slice 7 authHeader in
    decoded ← verifyIdToken w token;
    if truthy (tok_ngTenant decoded) && truthy (tok_ngUserId decoded) then
      Return {| caller_uid := uid_of_token aw token;
                caller_claims :=
                  {| ngTenant := default "" (tok_ngTenant decoded);
                     ngUserId := default "" (tok_ngUserId decoded);
                     ngSpaceIds := default [] (tok_ngSpaceIds decoded) |} |}
    else Throw "Missing sandbox claims — contact admin for access"
  else Throw "Missing or invalid Authorization header".

(** The body sent upstream: the caller chooses the name and the type,
    never the owner. *)
Definition space_payload (b : json) (ngUserId : string) : json :=
  JObj {[ "name" := Js.or_else (get_prop b "name") (JStr "Untitled Space");
          "space_type" := Js.or_else (get_prop b "space_type") (JStr "memory");
          "owner_id" := JStr ngUserId ]}.

Definition create_request (w : World) (req : Request) (claims : UserClaims)
    : UpstreamRequest :=
  {| up_url := NG_API_BASE +:+ "/v1/spaces";
     up_method := "POST";
     up_headers := upstream_headers w claims;
     up_body := Some (space_payload (body_object (body req)) (ngUserId claims)) |}.

(** [upstream.ok] *)
Definition ok (up : UpstreamResponse) : bool :=
  Nat.leb 200 (up_status up) && Nat.leb (up_status up) 299.

Definition grown_claims (claims : UserClaims) (newSpaceId : json) : NewClaims :=
  {| nc_ngTenant := ngTenant claims;
     nc_ngUserId := ngUserId claims;
     nc_ngSpaceIds := (JStr <$> ngSpaceIds claims) ++ [newSpaceId] |}.

(** [newSpaceId && !ngSpaceIds.includes(newSpaceId)] *)
Definition is_new (claims : UserClaims) (newSpaceId : option json) : bool :=
  match newSpaceId with
  | Some id => Js.truthy id && negb (includes_id (ngSpaceIds claims) id)
  | None => false
  end.

(** After the upstream answered with JSON and a 2xx status. *)
Definition record_space (aw : AdminWorld) (caller : Caller) (respBody : json)
    : list event * outcome unit :=
  match Js.read_prop (Some respBody) "id" with
  | Throw msg => ([], Throw msg)
  | Return newSpaceId =>
      let answer := [SetHeaders [("Content-Type", "application/json")];
                     Respond 201 respBody] in
      if is_new (caller_claims caller) newSpaceId then
        let claims := grown_claims (caller_claims caller) (default JNull newSpaceId) in
        match setCustomUserClaims aw (caller_uid caller) claims with
        | Throw msg => ([SetClaims (caller_uid caller) claims], Throw msg)
        | Return _ => (SetClaims (caller_uid caller) claims :: answer, Return tt)
        end
      else (answer, Return tt)
  end.

Definition handleCreateSpace_try (w : World) (aw : AdminWorld) (req : Request)
    : list event * outcome unit :=
  if negb (String.eqb (method req) "POST") then
    ([Respond 405 (error_payload "Method not allowed")], Return tt)
  else
    match authenticate w aw req with
    | Throw msg => ([], Throw msg)
    | Return caller =>
        let r := create_request w req (caller_claims caller) in
        match fetch w r with
        | Throw msg => ([Fetch r], Throw msg)
        | Return upstream =>
            match JSON_parse w (up_text upstream) with
            | None =>
                ([Fetch r;
                  Respond (up_status upstream)
                    (error_payload ("Upstream returned non-JSON (HTTP "
                                      +:+ JsString.of_nat (up_status upstream) +:+ ")"))],
                 Return tt)
            | Some respBody =>
                if negb (ok upstream) then
                  ([Fetch r; Respond (up_status upstream) respBody], Return tt)
                else
                  let '(evs, result) := record_space aw caller respBody in
                  (Fetch r :: evs, result)
            end
        end
    end.

Definition handleCreateSpace (w : World) (aw : AdminWorld) (req : Request) : list event :=
  match handleCreateSpace_try w aw req with
  | (evs, Return _) => evs
  | (evs, Throw message) =>
      evs ++ [Respond (Chat.status_of_message message) (error_payload message)]
  end.

Definition is_respond (e : event) : bool :=
  match e with Respond _ _ => true | _ => false end.

End CreateSpace.

(** ** More of the concrete deployment *)

Module Scenario2.
Import Proxy.

(** The completion API answers every call with "Hello". *)
Definition chat_world : Chat.ChatWorld :=
  {| Chat.azureOpenaiApiKey := "azure-key";
     Chat.azureOpenaiEndpoint := "https://example.openai.azure.com";
     Chat.completions_create := fun _ => Return (Some "Hello") |}.

(** [POST /api/chat] by Alice. *)
Definition chat_request : Request :=
  {| method := "POST";
     headers := {[ "authorization" := "Bearer alice-id-token" ]};
     body := Some (JObj {[ "system_prompt" := JStr "Be brief.";
                           "messages" := JArr [JObj {[ "role" := JStr "user";
                                                       "content" := JStr "Hi" ]}] ]}) |}.

(** The upstream creates each space as [new-space]. *)
Definition creating : World :=
  {| verifyIdToken := verifyIdToken Scenario.deployment;
     ngApiKey := "ng-api-key";
     fetch := fun _ => Return {| up_status := 201; up_text := "{id:new-space}" |};
     JSON_parse := fun _ => Some (JObj {[ "id" := JStr "new-space" ]}) |}.

Definition admin : CreateSpace.AdminWorld :=
  {| CreateSpace.uid_of_token := fun _ => "alice-firebase-uid";
     CreateSpace.setCustomUserClaims := fun _ _ => Return tt |}.

(** [POST /api/create-space] by Alice, who tries to name another owner. *)
Definition create_space_request : Request :=
  {| method := "POST";
     headers := {[ "authorization" := "Bearer alice-id-token" ]};
     body := Some (JObj {[ "name" := JStr "Trips"; "owner_id" := JStr "bob-uid" ]}) |}.

(** Alice's claims once the new space is recorded, and a deployment in
    which her token carries them. *)
Definition alice_claims_after : UserClaims :=
  {| ngTenant := "tenant-1"; ngUserId := "alice-uid";
     ngSpaceIds := ["alice-space"; "new-space"] |}.

Definition afterwards : World :=
  {| verifyIdToken := fun _ =>
       Return {| tok_ngTenant := Some "tenant-1"; tok_ngUserId := Some "alice-uid";
                 tok_ngSpaceIds := Some ["alice-space"; "new-space"] |};
     ngApiKey := "ng-api-key";
     fetch := fetch Scenario.deployment;
     JSON_parse := JSON_parse Scenario.deployment |}.

(** [POST /api/v1/spaces/new-space/ingest] by Alice. *)
Definition ingest_request : Request :=
  {| method := "POST";
     headers := {[ "authorization" := "Bearer alice-id-token" ]};
     body := Some (JObj {[ "content" := JStr "Paris trip planning" ]}) |}.

End Scenario2.

(** ** The service worker's install and activate listeners
    (src/public/sw.js, lines 1-25) *)

Module ServiceWorkerLifecycle.
Import ServiceWorker.

Definition STATIC_ASSETS : list string :=
  [ "/sandbox.html";
    "/assets/logo-dark.png";
    "/assets/icon-192.png";
    "/assets/icon-512.png";
    "/assets/apple-touch-icon.png";
    "/manifest.json" ].

(** [cache.addAll(urls)] first fetches every URL, resolved against the
    worker's origin; one failed fetch, or one response that is not ok,
    rejects the whole call. *)
Definition fetch_all (network : string -> option Response) (is_ok : Response -> bool)
    (origin : string) (urls : list string) : option (list (string * Response)) :=
  mapM (fun url =>
          match network (origin +:+ url) with
          | Some r => if is_ok r then Some (origin +:+ url, r) else None
          | None => None
          end) urls.

(** ... and then stores the responses, in order. *)
Definition store_all (entries : list (string * Response)) (cache : gmap string Response)
    : gmap string Response :=
  foldl (fun m entry => <[entry.1 := entry.2]> m) cache entries.

(** The install listener: [caches.open(CACHE_NAME)] makes the cache if
    need be, then [addAll(STATIC_ASSETS)].  The boolean tells whether the
    promise given to [waitUntil] was fulfilled. *)
Definition install (network : string -> option Response) (is_ok : Response -> bool)
    (origin : string) (caches : CacheStorage) : bool * CacheStorage :=
  let cache := default ∅ (caches !! CACHE_NAME) in
  match fetch_all network is_ok origin STATIC_ASSETS with
  | Some entries => (true, <[CACHE_NAME := store_all entries cache]> caches)
  | None => (false, <[CACHE_NAME := cache]> caches)
  end.

(** The activate listener: every cache whose key is not [CACHE_NAME] is
    deleted. *)
Definition activate (caches : CacheStorage) : CacheStorage :=
  filter (fun kv => kv.1 = CACHE_NAME) caches.

(** [CACHE_NAME] is the only cache there is. *)
Definition only_current (caches : CacheStorage) : Prop :=
  forall name, is_Some (caches !! name) -> name = CACHE_NAME.

(** The response stored for a request in a given cache. *)
Definition stored (caches : CacheStorage) (name req : string) : option Response :=
  caches !! name ≫= fun cache => cache !! req.

End ServiceWorkerLifecycle.

(** ** The Cloud Function [api] (source lines 595-619) *)

Module Api.
Import Proxy.




End Api.

(** * Properties *)

(** ** Strings *)

Section StringFacts.

Lemma prefix_app (p x : string) : String.prefix p (p +:+ x) = true.
Proof.
  induction p as [|a p IH]; simpl.
  - now destruct x.
  - destruct (ascii_dec a a) as [_|Hne]; [exact IH | now elim Hne].
Qed.

Lemma includes_of_prefix (s sub : string) :
  String.prefix sub s = true -> JsString.includes s sub = true.
Proof. intros H. destruct s; unfold JsString.includes; now rewrite H. Qed.

Lemma includes_app (p x : string) : JsString.includes (p +:+ x) p = true.
Proof. apply includes_of_prefix, prefix_app. Qed.

Lemma existsb_eqb_In (s : string) (l : list string) :
  existsb (String.eqb s) l = true <-> In s l.
Proof.
  rewrite existsb_exists. split.
  - intros (x & Hin & Heq). apply String.eqb_eq in Heq. now subst.
  - intros Hin. exists s. split; [exact Hin | apply String.eqb_refl].
Qed.

Lemma strip_prefix_app (p x : string) : JsString.strip_prefix p (p +:+ x) = Some x.
Proof.
  induction p as [|a p IH]; simpl.
  - reflexivity.
  - now rewrite Ascii.eqb_refl.
Qed.

Lemma span_seg_no_slash (s : string) : no_slash s = true -> span_seg s = (s, "").
Proof.
  induction s as [|a s IH]; simpl; [reflexivity|].
  intros H. apply andb_true_iff in H as [Ha Hs].
  destruct (is_slash a); [discriminate|]. now rewrite (IH Hs).
Qed.

Lemma eqb_empty_false (s : string) : s <> "" -> String.eqb s "" = false.
Proof. intros H. now apply String.eqb_neq. Qed.

Lemma strip_prefix_Some (p s r : string) :
  JsString.strip_prefix p s = Some r <-> s = p +:+ r.
Proof.
  revert s. induction p as [|a p IH]; intros s; simpl.
  - split; [now intros [= ->] | now intros ->].
  - destruct s as [|b s]; [split; discriminate|].
    destruct (Ascii.eqb_spec a b) as [->|Hne].
    + rewrite IH. split; [now intros -> | now intros [= ->]].
    + split; [discriminate | intros [= Hab _]; now elim Hne].
Qed.

Lemma is_slash_true (a : ascii) : is_slash a = true <-> a = "/"%char.
Proof. unfold is_slash. apply Ascii.eqb_eq. Qed.

Lemma span_seg_spec (s : string) :
  s = (span_seg s).1 +:+ (span_seg s).2
  /\ no_slash (span_seg s).1 = true
  /\ delimited (span_seg s).2.
Proof.
  induction s as [|a s (IH1 & IH2 & IH3)]; simpl.
  - repeat split. now left.
  - destruct (is_slash a) eqn:Ha.
    + repeat split. right. apply is_slash_true in Ha. subst. eauto.
    + destruct (span_seg s) as [w r]; simpl in *.
      rewrite Ha. repeat split; [rewrite IH1 at 1; reflexivity | exact IH2 | exact IH3].
Qed.

Lemma span_seg_app (w r : string) :
  no_slash w = true -> delimited r -> span_seg (w +:+ r) = (w, r).
Proof.
  intros Hw Hr. induction w as [|a w IH]; simpl in *.
  - destruct Hr as [->|(r' & ->)]; reflexivity.
  - apply andb_true_iff in Hw as [Ha Hw].
    destruct (is_slash a); [discriminate|]. now rewrite (IH Hw).
Qed.

Lemma spells_delimited (ts : list tok) (r : string) :
  segs_delimited (Seg :: ts) = true -> spells ts r -> delimited r.
Proof.
  simpl. intros H Hs. apply andb_true_iff in H as [H _].
  destruct Hs as [|p ts r Hs|w ts r _ _ _]; [now left| |discriminate].
  destruct p as [|a p]; [discriminate|].
  apply is_slash_true in H. subst. right. simpl. eauto.
Qed.

(** The matcher decides the regular expression. *)
Lemma match_toks_spells (ts : list tok) :
  segs_delimited ts = true ->
  forall s, match_toks ts s = true <-> spells ts s.
Proof.
  induction ts as [|[p|] ts IH]; intros Hwf s.
  - simpl. rewrite String.eqb_eq. split; [intros ->; constructor|].
    now inversion 1.
  - simpl in *. destruct (JsString.strip_prefix p s) as [r|] eqn:E.
    + apply strip_prefix_Some in E. subst. rewrite (IH Hwf). split.
      * now constructor.
      * inversion 1 as [|p' ts' r' Hr' Hp Happ|]; subst.
        apply strip_prefix_Some in Happ. rewrite strip_prefix_app in Happ.
        now inversion Happ; subst.
    + split; [discriminate|]. inversion 1 as [|p' ts' r' Hr'|]; subst.
      now rewrite strip_prefix_app in E.
  - assert (Hrest : segs_delimited ts = true)
      by (simpl in Hwf; now apply andb_true_iff in Hwf as [_ ?]).
    cbn [match_toks]. destruct (span_seg_spec s) as (Hs & Hw & _).
    destruct (span_seg s) as [w r] eqn:E; simpl in Hs, Hw. split.
    + destruct (String.eqb_spec w ""); [discriminate|].
      intros H. rewrite Hs. constructor; auto. now apply IH.
    + inversion 1 as [| |w' ts' r' Hne Hns Hr']; subst.
      match goal with Heq : w' +:+ r' = _ |- _ => rewrite <- Heq in E end.
      rewrite (span_seg_app w' r' Hns (spells_delimited _ _ Hwf Hr')) in E.
      inversion E; subst. rewrite (eqb_empty_false _ Hne). now apply IH.
Qed.

End StringFacts.

(** ** enforceSpaceIds *)

Module EnforceFacts.
Import Proxy.

Lemma includes_id_spec (allowed : list string) (v : json) :
  includes_id allowed v = true <-> in_allowed allowed v.
Proof.
  unfold in_allowed. destruct v; simpl;
    try (split; [discriminate | intros (s0 & H & _); discriminate]).
  rewrite existsb_eqb_In. split.
  - intros H. now exists s.
  - intros (s0 & H & Hin). now inversion H; subst.
Qed.

Lemma filter_nonempty {A} (f : A -> bool) (l : list A) :
  Nat.ltb 0 (List.length (List.filter f l)) = true <->
  exists x, In x l /\ f x = true.
Proof.
  rewrite Nat.ltb_lt. split.
  - destruct (List.filter f l) as [|x r] eqn:E; simpl; [lia|].
    intros _. exists x. apply filter_In. rewrite E. now left.
  - intros (x & Hx). apply filter_In in Hx.
    destruct (List.filter f l); simpl; [destruct Hx | lia].
Qed.

Lemma classic_array (j : json) :
  (exists items, j = JArr items) \/ (forall items, j <> JArr items).
Proof. destruct j; try (right; discriminate). left. eauto. Qed.

(** The outcome of the first check (on [space_ids]). *)
Lemma space_ids_check (allowed : list string) (items : list json) :
  let disallowed := List.filter (fun id => negb (includes_id allowed id)) items in
  Nat.ltb 0 (List.length disallowed) = true <->
  exists v, In v items /\ ~ in_allowed allowed v.
Proof.
  cbv zeta. rewrite filter_nonempty. split; intros (v & Hin & Hv); exists v; split; auto.
  - rewrite <- includes_id_spec. now destruct (includes_id allowed v).
  - rewrite <- includes_id_spec in Hv. now destruct (includes_id allowed v).
Qed.

Lemma bad_item_dec (allowed : list string) (items : list json) :
  (exists v, In v items /\ ~ in_allowed allowed v)
  \/ ~ (exists v, In v items /\ ~ in_allowed allowed v).
Proof.
  rewrite <- space_ids_check. cbv zeta.
  destruct (Nat.ltb 0 _); [now left | right; discriminate].
Qed.

(** The outcome of the second check (on [space_id]). *)
Lemma space_id_check (allowed : list string) (s : string) :
  negb (includes_id allowed (JStr s)) = true <-> ~ In s allowed.
Proof.
  simpl. rewrite <- existsb_eqb_In. now destruct (existsb (String.eqb s) allowed).
Qed.

(** What [enforceSpaceIds] does once the two fields are known. *)
Lemma enforceSpaceIds_array (body : json) (allowed : list string) (items : list json) :
  get_prop body "space_ids" = Some (JArr items) ->
  (exists v, In v items /\ ~ in_allowed allowed v) ->
  exists msg, enforceSpaceIds body allowed = Throw msg.
Proof.
  intros Hids Hbad. apply space_ids_check in Hbad. cbv zeta in Hbad.
  unfold enforceSpaceIds. rewrite Hids, Hbad. simpl. eauto.
Qed.

Lemma enforceSpaceIds_array_ok (body : json) (allowed : list string) (items : list json) :
  get_prop body "space_ids" = Some (JArr items) ->
  ~ (exists v, In v items /\ ~ in_allowed allowed v) ->
  enforceSpaceIds body allowed =
    match get_prop body "space_id" with
    | Some (JStr space_id) =>
        if negb (includes_id allowed (JStr space_id)) then
          Throw ("Access denied to space: " +:+ space_id)
        else Return tt
    | _ => Return tt
    end.
Proof.
  intros Hids Hok. rewrite <- space_ids_check in Hok. cbv zeta in Hok.
  apply not_true_is_false in Hok.
  unfold enforceSpaceIds. rewrite Hids, Hok. reflexivity.
Qed.

Lemma enforceSpaceIds_no_array (body : json) (allowed : list string) :
  (forall items, get_prop body "space_ids" <> Some (JArr items)) ->
  enforceSpaceIds body allowed =
    match get_prop body "space_id" with
    | Some (JStr space_id) =>
        if negb (includes_id allowed (JStr space_id)) then
          Throw ("Access denied to space: " +:+ space_id)
        else Return tt
    | _ => Return tt
    end.
Proof.
  intros Hno. unfold enforceSpaceIds.
  destruct (get_prop body "space_ids") as [[]|]; try reflexivity.
  now elim (Hno items).
Qed.

Lemma second_check_throws (body : json) (allowed : list string) :
  (exists msg,
     match get_prop body "space_id" with
     | Some (JStr space_id) =>
         if negb (includes_id allowed (JStr space_id)) then
           Throw ("Access denied to space: " +:+ space_id)
         else Return tt
     | _ => Return tt
     end = Throw msg) <->
  (exists s, get_prop body "space_id" = Some (JStr s) /\ ~ In s allowed).
Proof.
  destruct (get_prop body "space_id") as [[]|];
    try (split; [intros (m & H); discriminate | intros (s0 & H & _); discriminate]).
  destruct (negb (includes_id allowed (JStr s))) eqn:E.
  - apply space_id_check in E. split; eauto.
  - split; [intros (m & H); discriminate |].
    intros (s0 & H & Hs0). inversion H; subst.
    apply space_id_check in Hs0. congruence.
Qed.

(** C9. [enforceSpaceIds(body, allowed)] throws exactly when
    [body.space_ids] is an array holding some element that is not one of
    the allowed ids, or [body.space_id] is a string that is not one of
    them; a body whose [space_ids] is not an array and whose [space_id]
    is not a string passes. *)
Theorem enforceSpaceIds_throws_exactly (body : json) (allowed : list string) :
  ((exists msg, enforceSpaceIds body allowed = Throw msg) <->
     (exists items v,
         get_prop body "space_ids" = Some (JArr items)
         /\ In v items /\ ~ in_allowed allowed v)
     \/ (exists s, get_prop body "space_id" = Some (JStr s) /\ ~ In s allowed))
  /\ ((forall items, get_prop body "space_ids" <> Some (JArr items)) ->
      (forall s, get_prop body "space_id" <> Some (JStr s)) ->
      enforceSpaceIds body allowed = Return tt).
Proof.
  split.
  - destruct (get_prop body "space_ids") as [j|] eqn:Hids.
    + destruct (classic_array j) as [(items & ->)|Hnot].
      * destruct (bad_item_dec allowed items) as [Hbad|Hok].
        -- split; [intros _|intros _; eapply enforceSpaceIds_array; eauto].
           left. destruct Hbad as (v & Hv). exists items, v. tauto.
        -- rewrite (enforceSpaceIds_array_ok _ _ _ Hids Hok), second_check_throws.
           split; [tauto|]. intros [(items' & v & H & Hv)|H]; [|exact H].
           inversion H; subst. elim Hok. eauto.
      * rewrite enforceSpaceIds_no_array, second_check_throws
          by (rewrite Hids; intros items H; inversion H; subst; eapply Hnot; eauto).
        split; [tauto|]. intros [(items' & v & H & Hv)|H]; [|exact H].
        inversion H; subst. elim (Hnot items'). reflexivity.
    + rewrite enforceSpaceIds_no_array, second_check_throws
        by (rewrite Hids; discriminate).
      split; [tauto|]. intros [(items' & v & H & Hv)|H]; [discriminate|exact H].
  - intros Hno Hstr. rewrite enforceSpaceIds_no_array by exact Hno.
    destruct (get_prop body "space_id") as [[]|]; try reflexivity.
    now elim (Hstr s).
Qed.

(** A body whose [space_ids] is a string and whose [space_id] is a
    number is not checked at all. *)
Lemma enforceSpaceIds_throws_exactly_witness :
  enforceSpaceIds
    (JObj {[ "space_ids" := JStr "someone-elses-space"; "space_id" := JNum "7" ]})
    ["my-space"] = Return tt.
Proof.
  apply (proj2 (enforceSpaceIds_throws_exactly
                  (JObj {[ "space_ids" := JStr "someone-elses-space"; "space_id" := JNum "7" ]})
                  ["my-space"])).
  - intros items; simpl; discriminate.
  - intros s; simpl; discriminate.
Defined.

End EnforceFacts.

(** ** handleProxy *)

Module ProxyFacts.
Import Proxy KeyField Scenario.

Lemma status_access_denied (x : string) :
  status_of_message ("Access denied" +:+ x) = 403.
Proof. unfold status_of_message. now rewrite includes_app. Qed.

Lemma enforceSpaceIds_throw_status (b : json) (allowed : list string) (msg : string) :
  enforceSpaceIds b allowed = Throw msg -> status_of_message msg = 403.
Proof.
  unfold enforceSpaceIds.
  destruct (get_prop b "space_ids") as [[]|]; simpl;
    repeat match goal with
      | |- context [if ?c then _ else _] => destruct c; simpl
      | |- context [match ?x with _ => _ end] => destruct x; simpl
      end;
    intros H; inversion H; subst; try apply (status_access_denied (String _ _)).
Qed.

(** [verifyAuth] reads the [authorization] header and nothing else. *)
Lemma verifyAuth_authorization_only (w : World) (r1 r2 : Request) :
  headers r1 !! "authorization" = headers r2 !! "authorization" ->
  verifyAuth w r1 = verifyAuth w r2.
Proof. intros H. unfold verifyAuth. now rewrite H. Qed.

(** The handler's behaviour is a function of the method, the body and
    the [authorization] header. *)
Lemma handleProxy_reads (w : World) (r1 r2 : Request) (path : string) :
  method r1 = method r2 ->
  body r1 = body r2 ->
  headers r1 !! "authorization" = headers r2 !! "authorization" ->
  handleProxy w r1 path = handleProxy w r2 path.
Proof.
  intros Hm Hb Ha. unfold handleProxy, handleProxy_try, fetchOptions.
  now rewrite (verifyAuth_authorization_only w r1 r2 Ha), Hm, Hb.
Qed.

(** The upstream is contacted only after all four checks. *)
Lemma handleProxy_contacted_only_if (w : World) (req : Request) (path : string) :
  contacted (handleProxy w req path) = true ->
  exists claims,
    verifyAuth w req = Return claims
    /\ isPathAllowed (method req) path = true
    /\ path_space_denied (extractSpaceIdFromPath path) claims = false
    /\ enforceSpaceIds (body_object (body req)) (ngSpaceIds claims) = Return tt.
Proof.
  unfold handleProxy, handleProxy_try.
  destruct (verifyAuth w req) as [claims|msg]; [|discriminate].
  destruct (isPathAllowed (method req) path); [|discriminate]. simpl negb. cbv iota.
  destruct (path_space_denied _ claims) eqn:Hpath; [discriminate|].
  destruct (enforceSpaceIds _ _) as [[]|msg] eqn:Hbody; [|discriminate].
  intros _. exists claims. auto.
Qed.

(** *** The whitelist and the path's space id, as regular expressions *)

Lemma ALLOWED_PATHS_delimited :
  forallb (fun r => segs_delimited (rule_pattern r)) ALLOWED_PATHS = true.
Proof. reflexivity. Qed.

(** X4.  [isPathAllowed(method, path)] holds exactly when some whitelist
    entry has that method and a pattern that spells the path. *)
Theorem isPathAllowed_spells (method path : string) :
  isPathAllowed method path = true <->
  exists r, In r ALLOWED_PATHS /\ rule_method r = method /\ spells (rule_pattern r) path.
Proof.
  unfold isPathAllowed. rewrite existsb_exists.
  pose proof ALLOWED_PATHS_delimited as Hwf. rewrite forallb_forall in Hwf.
  split; intros (r & Hin & H); exists r; (split; [exact Hin|]).
  - apply andb_true_iff in H as [Hm Hp]. apply String.eqb_eq in Hm.
    split; [exact Hm|]. now apply match_toks_spells; [apply Hwf|].
  - destruct H as [Hm Hp]. apply andb_true_iff. split.
    + now apply String.eqb_eq.
    + now apply match_toks_spells; [apply Hwf|].
Qed.

(** [extractSpaceIdFromPath] returns an id exactly for the paths
    [/v1/spaces/<id>/...]: the id must be followed by a '/'. *)
Lemma extractSpaceIdFromPath_spec (path id : string) :
  extractSpaceIdFromPath path = Some id <->
  id <> "" /\ no_slash id = true
  /\ exists rest, path = "/v1/spaces/" +:+ id +:+ "/" +:+ rest.
Proof.
  unfold extractSpaceIdFromPath. split.
  - destruct (JsString.strip_prefix "/v1/spaces/" path) as [r|] eqn:E; [|discriminate].
    apply strip_prefix_Some in E. subst path.
    destruct (span_seg_spec r) as (Hr & Hw & _).
    destruct (span_seg r) as [w rest]; simpl in Hr, Hw.
    destruct (String.eqb_spec w ""); [discriminate|].
    destruct rest as [|a rest]; [discriminate|].
    destruct (is_slash a) eqn:Ha; [|discriminate].
    apply is_slash_true in Ha. subst a. intros [= <-].
    repeat split; auto. exists rest. now rewrite Hr.
  - intros (Hne & Hns & rest & ->).
    rewrite strip_prefix_app.
    rewrite (span_seg_app id ("/" +:+ rest) Hns) by (right; eexists; reflexivity).
    rewrite (eqb_empty_false _ Hne). reflexivity.
Qed.

(** *** What each refusal looks like *)

Lemma handleProxy_no_bearer (w : World) (req : Request) (path : string) :
  (forall h, headers req !! "authorization" = Some h ->
             JsString.startsWith h "Bearer " = false) ->
  handleProxy w req path
  = [Respond 401 (error_payload "Missing or invalid Authorization header")].
Proof.
  intros H. unfold handleProxy, handleProxy_try, verifyAuth.
  destruct (headers req !! "authorization") as [h|]; [|reflexivity].
  now rewrite (H h eq_refl).
Qed.

Lemma handleProxy_endpoint_not_allowed (w : World) (req : Request) (path : string)
    (claims : UserClaims) :
  verifyAuth w req = Return claims ->
  isPathAllowed (method req) path = false ->
  handleProxy w req path = [Respond 403 (error_payload "Endpoint not allowed")].
Proof.
  intros Ha Hp. unfold handleProxy, handleProxy_try. now rewrite Ha, Hp.
Qed.

Lemma handleProxy_path_space_denied (w : World) (req : Request) (path : string)
    (claims : UserClaims) :
  verifyAuth w req = Return claims ->
  path_space_denied (extractSpaceIdFromPath path) claims = true ->
  exists payload, handleProxy w req path = [Respond 403 payload].
Proof.
  intros Ha Hd. unfold handleProxy, handleProxy_try. rewrite Ha, Hd.
  destruct (isPathAllowed (method req) path); simpl; eauto.
Qed.

Lemma handleProxy_body_space_denied (w : World) (req : Request) (path : string)
    (claims : UserClaims) (msg : string) :
  verifyAuth w req = Return claims ->
  enforceSpaceIds (body_object (body req)) (ngSpaceIds claims) = Throw msg ->
  exists payload, handleProxy w req path = [Respond 403 payload].
Proof.
  intros Ha He. unfold handleProxy, handleProxy_try. rewrite Ha, He.
  destruct (isPathAllowed (method req) path); simpl; eauto.
  destruct (path_space_denied _ claims); simpl; eauto.
  rewrite (enforceSpaceIds_throw_status _ _ _ He). eauto.
Qed.

(** *** [GET /v1/spaces/{id}]: the id in the path is never compared *)

Lemma get_space_allowed (sid : string) :
  sid <> "" -> no_slash sid = true ->
  isPathAllowed "GET" ("/v1/spaces/" +:+ sid) = true.
Proof.
  intros Hne Hns. unfold isPathAllowed, ALLOWED_PATHS.
  cbn [existsb rule_method rule_pattern].
  replace (match_toks [Lit "/v1/spaces/"; Seg] ("/v1/spaces/" +:+ sid)) with true.
  - cbn. now rewrite !orb_true_r.
  - cbn [match_toks]. rewrite strip_prefix_app, (span_seg_no_slash _ Hns).
    now rewrite (eqb_empty_false _ Hne).
Qed.

Lemma get_space_no_path_id (sid : string) :
  no_slash sid = true ->
  extractSpaceIdFromPath ("/v1/spaces/" +:+ sid) = None.
Proof.
  intros Hns. unfold extractSpaceIdFromPath.
  rewrite strip_prefix_app, (span_seg_no_slash _ Hns).
  now destruct (String.eqb sid "").
Qed.

(** Whatever the caller's [ngSpaceIds], a [GET] of any single space goes
    upstream. *)
Lemma get_space_unchecked (w : World) (req : Request) (claims : UserClaims) (sid : string) :
  method req = "GET" ->
  verifyAuth w req = Return claims ->
  sid <> "" -> no_slash sid = true ->
  enforceSpaceIds (body_object (body req)) (ngSpaceIds claims) = Return tt ->
  contacted (handleProxy w req ("/v1/spaces/" +:+ sid)) = true.
Proof.
  intros Hm Ha Hne Hns He. unfold handleProxy, handleProxy_try.
  rewrite Ha, Hm, (get_space_allowed _ Hne Hns), (get_space_no_path_id _ Hns), He.
  cbn [negb path_space_denied].
  destruct (fetch w _); reflexivity.
Qed.

(** *** The checks, together *)

(** X1.  The upstream is contacted only when the token verified, the
    (method, path) pair is whitelisted, the id [extractSpaceIdFromPath]
    finds in the path, if any, is one of the caller's [ngSpaceIds], and the
    body's space ids are all the caller's. *)
Theorem handleProxy_checks (w : World) (req : Request) (path : string) :
  contacted (handleProxy w req path) = true ->
  exists claims,
    verifyAuth w req = Return claims
    /\ isPathAllowed (method req) path = true
    /\ (forall id, extractSpaceIdFromPath path = Some id -> In id (ngSpaceIds claims))
    /\ enforceSpaceIds (body_object (body req)) (ngSpaceIds claims) = Return tt.
Proof.
  intros H. apply handleProxy_contacted_only_if in H as (claims & Ha & Hp & Hd & He).
  exists claims. repeat split; auto.
  intros id Hid. rewrite Hid in Hd. cbn in Hd.
  apply extractSpaceIdFromPath_spec in Hid as (Hne & _).
  rewrite (eqb_empty_false _ Hne) in Hd. cbn in Hd.
  apply negb_false_iff in Hd. now apply existsb_eqb_In.
Qed.

Lemma handleProxy_checks_witness :
  exists claims,
    verifyAuth deployment hydrate_without_key = Return claims
    /\ isPathAllowed "POST" "/v1/hydrate" = true
    /\ (forall id, extractSpaceIdFromPath "/v1/hydrate" = Some id -> In id (ngSpaceIds claims))
    /\ enforceSpaceIds (body_object (body hydrate_without_key)) (ngSpaceIds claims) = Return tt.
Proof.
  apply (handleProxy_checks deployment hydrate_without_key "/v1/hydrate").
  vm_compute. reflexivity.
Defined.

(** X2.  A verified caller who fails one of the checks is answered with a
    single 403 and the upstream is not contacted. *)
Theorem handleProxy_refuses_403 (w : World) (req : Request) (path : string)
    (claims : UserClaims) :
  verifyAuth w req = Return claims ->
  isPathAllowed (method req) path = false
  \/ path_space_denied (extractSpaceIdFromPath path) claims = true
  \/ (exists msg, enforceSpaceIds (body_object (body req)) (ngSpaceIds claims) = Throw msg) ->
  contacted (handleProxy w req path) = false
  /\ exists payload, handleProxy w req path = [Respond 403 payload].
Proof.
  intros Ha H.
  assert (Hr : exists payload, handleProxy w req path = [Respond 403 payload]).
  { destruct H as [H|[H|(msg & H)]].
    - eexists. eapply handleProxy_endpoint_not_allowed; eauto.
    - eapply handleProxy_path_space_denied; eauto.
    - eapply handleProxy_body_space_denied; eauto. }
  split; [|exact Hr]. destruct Hr as (payload & ->). reflexivity.
Qed.

Lemma handleProxy_refuses_403_witness :
  contacted (handleProxy deployment get_bob_space "/v1/spaces/bob-space/ingest") = false
  /\ exists payload,
       handleProxy deployment get_bob_space "/v1/spaces/bob-space/ingest" = [Respond 403 payload].
Proof.
  apply (handleProxy_refuses_403 deployment get_bob_space "/v1/spaces/bob-space/ingest" alice_claims).
  - vm_compute. reflexivity.
  - left. vm_compute. reflexivity.
Defined.

(** X3.  A request with no [authorization] header is answered 401 and
    goes nowhere. *)
Theorem handleProxy_no_bearer_401 (w : World) (req : Request) (path : string) :
  headers req !! "authorization" = None ->
  handleProxy w req path
  = [Respond 401 (error_payload "Missing or invalid Authorization header")].
Proof.
  intros H. apply handleProxy_no_bearer. intros h Hh. congruence.
Qed.

Lemma handleProxy_no_bearer_401_witness :
  handleProxy deployment {| method := "GET"; headers := ∅; body := None |} "/v1/health"
  = [Respond 401 (error_payload "Missing or invalid Authorization header")].
Proof.
  apply (handleProxy_no_bearer_401 deployment {| method := "GET"; headers := ∅; body := None |}).
  reflexivity.
Defined.

(** C8 (defect in the code).  The proxy is meant to contact the upstream
    only when a space id embedded in the path is one of the caller's
    [ngSpaceIds].  Alice, whose only space is [alice-space], asks for
    [GET /v1/spaces/bob-space]: the path is whitelisted,
    [extractSpaceIdFromPath] finds no id in it (its pattern wants a '/'
    after the id), and the request goes upstream. *)
Theorem handleProxy_forwards_foreign_space :
  verifyAuth deployment get_bob_space = Return alice_claims
  /\ existsb (String.eqb "bob-space") (ngSpaceIds alice_claims) = false
  /\ extractSpaceIdFromPath "/v1/spaces/bob-space" = None
  /\ handleProxy deployment get_bob_space "/v1/spaces/bob-space"
     = [ Fetch {| up_url := "https://api.neuralgraph.app/v1/spaces/bob-space";
                  up_method := "GET";
                  up_headers := [ ("X-API-Key", "ng-api-key");
                                  ("Content-Type", "application/json");
                                  ("X-User-ID", "alice-uid");
                                  ("X-Tenant-ID", "tenant-1") ];
                  up_body := None |};
         SetHeaders [("Content-Type", "application/json")];
         Respond 200 (JObj ∅) ].
Proof. repeat split; vm_compute; reflexivity. Qed.

(** A token that Firebase rejects as expired is answered with 500, not
    401: the message holds neither "Missing" nor "invalid". *)
Lemma handleProxy_stale_token_500 :
  handleProxy deployment stale_token_request "/v1/health"
  = [ Respond 500
        (error_payload "Firebase ID token has expired. Get a fresh ID token from your client app and try again (auth/id-token-expired).") ].
Proof. vm_compute. reflexivity. Qed.

(** *** The key field *)

Lemma authorization_is_not_key_field : KEY_FIELD <> "authorization".
Proof. discriminate. Qed.

(** C3 (as amended).  [handleProxy] never reads the key field: a request
    carrying a key [k] in [x-encryption-key] and the same request without
    the field cause the same upstream call and get the same response, so
    a request lacking the field is not refused for lacking it; and every
    upstream call carries exactly the four headers built from the API
    secret and the verified claims, none of them taken from the key
    field. *)
Theorem handleProxy_ignores_key_field (w : World) (req : Request) (path k : string) :
  handleProxy w (with_key k req) path = handleProxy w (without_key req) path
  /\ (forall r, In (Fetch r) (handleProxy w (with_key k req) path) ->
                exists claims,
                  verifyAuth w (without_key req) = Return claims
                  /\ up_headers r = upstream_headers w claims).
Proof.
  assert (Hsame : handleProxy w (with_key k req) path
                  = handleProxy w (without_key req) path).
  { apply handleProxy_reads; try reflexivity.
    unfold with_key, without_key; cbn [headers].
    rewrite lookup_insert_ne, lookup_delete_ne
      by apply authorization_is_not_key_field.
    reflexivity. }
  split; [exact Hsame|].
  intros r. rewrite Hsame. unfold handleProxy, handleProxy_try.
  destruct (verifyAuth w (without_key req)) as [claims|msg].
  - destruct (isPathAllowed _ path); cbn [negb].
    + destruct (path_space_denied _ claims).
      * intros [H|[]]; discriminate.
      * destruct (enforceSpaceIds _ _) as [[]|msg].
        -- destruct (fetch w _) as [up|msg] eqn:Hf.
           ++ intros [H|H].
              ** inversion H; subst. exists claims. split; reflexivity.
              ** unfold relay in H. destruct H as [H|H]; [discriminate|].
                 destruct (String.eqb (up_text up) "");
                   [|destruct (JSON_parse w (up_text up))];
                   destruct H as [H|[]]; discriminate.
           ++ intros [H|[H|[]]]; [|discriminate].
              inversion H; subst. exists claims. split; reflexivity.
        -- intros [H|[]]; discriminate.
    + intros [H|[]]; discriminate.
  - intros [H|[]]; discriminate.
Qed.

(** C3 (as stated) fails.  Alice posts to [/v1/hydrate], an operation on
    tenant content, with no key field: the handler does not refuse the
    request, it forwards it and relays the upstream's 200. *)
Lemma handleProxy_accepts_missing_key :
  lacks_key hydrate_without_key = true
  /\ contacted (handleProxy deployment hydrate_without_key "/v1/hydrate") = true
  /\ rejected (handleProxy deployment hydrate_without_key "/v1/hydrate") = false
  /\ handleProxy deployment hydrate_without_key "/v1/hydrate"
     = [ Fetch {| up_url := "https://api.neuralgraph.app/v1/hydrate";
                  up_method := "POST";
                  up_headers := [ ("X-API-Key", "ng-api-key");
                                  ("Content-Type", "application/json");
                                  ("X-User-ID", "alice-uid");
                                  ("X-Tenant-ID", "tenant-1") ];
                  up_body := Some (JObj {[ "space_ids" := JArr [JStr "alice-space"];
                                          "query" := JStr "Paris trip" ]}) |};
         SetHeaders [("Content-Type", "application/json")];
         Respond 200 (JObj ∅) ].
Proof. repeat split; vm_compute; reflexivity. Qed.

End ProxyFacts.

(** ** The service worker *)

Module ServiceWorkerFacts.
Import ServiceWorker.

(** C10.  A fetch event whose URL pathname starts with [/api] or whose
    hostname contains [googleapis] is not intercepted: the listener
    returns before [respondWith], looks nothing up in the caches and
    stores nothing in them. *)
Theorem api_and_auth_never_cached (network : string -> option Response)
    (caches : CacheStorage) (event : FetchEvent) :
  JsString.startsWith (url_pathname event) "/api" = true
  \/ JsString.includes (url_hostname event) "googleapis" = true ->
  answer (on_fetch network caches event) = NotIntercepted
  /\ effects (on_fetch network caches event) = []
  /\ caches_after (on_fetch network caches event) = caches.
Proof.
  intros H. unfold on_fetch.
  assert (Hguard : JsString.startsWith (url_pathname event) "/api"
                   || JsString.includes (url_hostname event) "googleapis" = true)
    by (apply orb_true_iff; exact H).
  rewrite Hguard. auto.
Qed.

Lemma api_and_auth_never_cached_witness :
  let event := {| url_pathname := "/api/v1/hydrate";
                  url_hostname := "neuralgraph.app";
                  destination := "";
                  request := "https://neuralgraph.app/api/v1/hydrate" |} in
  let caches : CacheStorage :=
    {[ CACHE_NAME := {[ "https://neuralgraph.app/api/v1/hydrate" := "stale answer" ]} ]} in
  answer (on_fetch (fun _ => Some "fresh answer") caches event) = NotIntercepted
  /\ effects (on_fetch (fun _ => Some "fresh answer") caches event) = []
  /\ caches_after (on_fetch (fun _ => Some "fresh answer") caches event) = caches.
Proof.
  cbv zeta. apply api_and_auth_never_cached. left. reflexivity.
Defined.

(** X5.  The listener stores a response only for a document request, only
    the response the network just gave for it, and only in [CACHE_NAME]. *)
Theorem on_fetch_stores_documents_only (network : string -> option Response)
    (caches : CacheStorage) (event : FetchEvent) (name req : string) (resp : Response) :
  In (CachePut name req resp) (effects (on_fetch network caches event)) ->
  name = CACHE_NAME
  /\ req = request event
  /\ destination event = "document"
  /\ network (request event) = Some resp
  /\ answer (on_fetch network caches event) = Replied resp
  /\ caches_after (on_fetch network caches event) = cache_put caches CACHE_NAME req resp.
Proof.
  unfold on_fetch.
  destruct (JsString.startsWith _ _ || JsString.includes _ _); cbn [effects]; [intros []|].
  destruct (String.eqb_spec (destination event) "document") as [Hd|Hd].
  - destruct (network (request event)) as [response|] eqn:Hn; cbn [effects answer caches_after].
    + intros [H|[H|[H|[]]]]; try discriminate. inversion H; subst. repeat split; auto.
    + intros [H|[H|[]]]; discriminate.
  - destruct (caches_match caches (request event)); cbn [effects].
    + intros [H|[]]; discriminate.
    + intros [H|[H|[]]]; discriminate.
Qed.

Lemma on_fetch_stores_documents_only_witness :
  let event := {| url_pathname := "/sandbox.html";
                  url_hostname := "neuralgraph.app";
                  destination := "document";
                  request := "https://neuralgraph.app/sandbox.html" |} in
  let network := fun _ : string => Some "<html>sandbox</html>" in
  answer (on_fetch network ∅ event) = Replied "<html>sandbox</html>"
  /\ caches_after (on_fetch network ∅ event)
     = cache_put ∅ CACHE_NAME "https://neuralgraph.app/sandbox.html" "<html>sandbox</html>".
Proof.
  cbv zeta.
  apply (on_fetch_stores_documents_only
           (fun _ => Some "<html>sandbox</html>") ∅
           {| url_pathname := "/sandbox.html"; url_hostname := "neuralgraph.app";
              destination := "document"; request := "https://neuralgraph.app/sandbox.html" |}
           CACHE_NAME "https://neuralgraph.app/sandbox.html" "<html>sandbox</html>").
  vm_compute. auto.
Defined.

(** X6.  An asset that is in a cache is answered from it, without the
    network. *)
Theorem on_fetch_asset_cache_first (network : string -> option Response)
    (caches : CacheStorage) (event : FetchEvent) (cached : Response) :
  JsString.startsWith (url_pathname event) "/api" = false ->
  JsString.includes (url_hostname event) "googleapis" = false ->
  destination event <> "document" ->
  caches_match caches (request event) = Some cached ->
  on_fetch network caches event
  = {| answer := Replied cached;
       effects := [CachesMatch (request event)];
       caches_after := caches |}.
Proof.
  intros Hp Hh Hd Hc. unfold on_fetch. rewrite Hp, Hh, Hc. cbn [orb].
  destruct (String.eqb_spec (destination event) "document"); [contradiction|reflexivity].
Qed.

Lemma on_fetch_asset_cache_first_witness :
  let event := {| url_pathname := "/assets/logo-dark.png";
                  url_hostname := "neuralgraph.app";
                  destination := "image";
                  request := "https://neuralgraph.app/assets/logo-dark.png" |} in
  let caches : CacheStorage :=
    {[ CACHE_NAME := {[ "https://neuralgraph.app/assets/logo-dark.png" := "logo bytes" ]} ]} in
  on_fetch (fun _ => None) caches event
  = {| answer := Replied "logo bytes";
       effects := [CachesMatch "https://neuralgraph.app/assets/logo-dark.png"];
       caches_after := caches |}.
Proof.
  cbv zeta.
  apply (on_fetch_asset_cache_first (fun _ => None)
           {[ CACHE_NAME := {[ "https://neuralgraph.app/assets/logo-dark.png" := "logo bytes" ]} ]}
           {| url_pathname := "/assets/logo-dark.png"; url_hostname := "neuralgraph.app";
              destination := "image";
              request := "https://neuralgraph.app/assets/logo-dark.png" |}
           "logo bytes").
  - reflexivity.
  - reflexivity.
  - discriminate.
  - vm_compute. reflexivity.
Defined.

End ServiceWorkerFacts.

(** ** The Pending Action Queue *)

Module QueueFacts.
Import PendingActionQueue.

Lemma claimAll_returns (tenant : string) (q : list PendingAction) (i : nat)
    (a' : PendingAction) :
  (i, a') ∈ (claimAll tenant q).1 ->
  exists a, q !! i = Some a /\ claimable tenant a /\ a' = set_status in_progress a.
Proof.
  unfold claimAll; cbn [fst]. intros H.
  apply list_elem_of_fmap in H as ([j a] & Heq & H).
  apply list_elem_of_filter in H as [Hc H].
  apply elem_of_lookup_imap in H as (k & b & Hkb & Hq).
  inversion Hkb; subst. inversion Heq; subst.
  exists b. auto.
Qed.

(** Only pending actions are claimed. *)
Lemma claimed_ids_pending (tenant : string) (q : list PendingAction) (i : nat) :
  i ∈ claimed_ids tenant q ->
  exists a, q !! i = Some a /\ status a = pending.
Proof.
  unfold claimed_ids. intros H.
  apply list_elem_of_fmap in H as ([j a'] & -> & H).
  apply claimAll_returns in H as (a & Hq & [_ Hs] & _). eauto.
Qed.

(** No operation moves an action out of [failed]. *)
Lemma step_keeps_failed (max_attempts : nat) (q : list PendingAction) (o : op)
    (id : nat) (a : PendingAction) :
  q !! id = Some a -> status a = failed ->
  step max_attempts q o !! id = Some a.
Proof.
  intros Hq Hs. destruct o as [now t k ts|t|j|j]; cbn [step].
  - now apply lookup_app_l_Some.
  - unfold claimAll; cbn [snd]. rewrite list_lookup_fmap, Hq. cbn.
    unfold claim. destruct (decide (claimable t a)) as [[_ Hp]|_]; [congruence|reflexivity].
  - unfold markDone. destruct (decide (j = id)) as [->|Hne].
    + rewrite list_lookup_alter_eq, Hq. cbn.
      destruct (decide (status a = in_progress)); [congruence|reflexivity].
    + now rewrite list_lookup_alter_ne.
  - unfold markFailed. destruct (decide (j = id)) as [->|Hne].
    + rewrite list_lookup_alter_eq, Hq. cbn.
      destruct (decide (status a = in_progress)); [congruence|reflexivity].
    + now rewrite list_lookup_alter_ne.
Qed.

Lemma run_keeps_failed (max_attempts : nat) (ops : list op) (q : list PendingAction)
    (id : nat) (a : PendingAction) :
  q !! id = Some a -> status a = failed ->
  run max_attempts ops q !! id = Some a.
Proof.
  revert q. induction ops as [|o ops IH]; intros q Hq Hs; [exact Hq|].
  cbn. apply IH; [|exact Hs]. now apply step_keeps_failed.
Qed.

(** C5.  [markFailed] on a claimed action increments its attempt count;
    while the count is within the bound the action is pending again; once
    the count exceeds the bound the action is failed, and then it stays
    failed through every later history of the queue and no later
    [claimAll], for any tenant, returns it. *)
Theorem markFailed_bounded_retry (max_attempts : nat) (q : list PendingAction)
    (id : nat) (a : PendingAction) :
  q !! id = Some a ->
  status a = in_progress ->
  exists a',
    markFailed max_attempts id q !! id = Some a'
    /\ attempt_count a' = S (attempt_count a)
    /\ (S (attempt_count a) <= max_attempts -> status a' = pending)
    /\ (max_attempts < S (attempt_count a) ->
        status a' = failed
        /\ forall (ops : list op) (tenant : string),
             run max_attempts ops (markFailed max_attempts id q) !! id = Some a'
             /\ id ∉ claimed_ids tenant (run max_attempts ops (markFailed max_attempts id q))).
Proof.
  intros Hq Hs. exists (fail_once max_attempts a).
  assert (Hl : markFailed max_attempts id q !! id = Some (fail_once max_attempts a)).
  { unfold markFailed. rewrite list_lookup_alter_eq, Hq. cbn.
    destruct (decide (status a = in_progress)); [reflexivity|contradiction]. }
  split; [exact Hl|]. split; [reflexivity|]. split.
  - intros Hle. unfold fail_once; cbn.
    destruct (decide (S (attempt_count a) <= max_attempts)); [reflexivity|lia].
  - intros Hgt.
    assert (Hf : status (fail_once max_attempts a) = failed).
    { unfold fail_once; cbn.
      destruct (decide (S (attempt_count a) <= max_attempts)); [lia|reflexivity]. }
    split; [exact Hf|]. intros ops tenant.
    pose proof (run_keeps_failed max_attempts ops _ id _ Hl Hf) as Hrun.
    split; [exact Hrun|]. intros Hin.
    apply claimed_ids_pending in Hin as (b & Hb & Hp). congruence.
Qed.

Lemma markFailed_bounded_retry_witness :
  exists a',
    markFailed 3 0 [stuck_merge] !! 0 = Some a'
    /\ attempt_count a' = 4
    /\ status a' = failed
    /\ 0 ∉ claimed_ids "tenant-1"
             (run 3 [ClaimAll "tenant-1"; MarkFailed 0; MarkDone 0; ClaimAll "tenant-1"]
                (markFailed 3 0 [stuck_merge])).
Proof.
  destruct (markFailed_bounded_retry 3 [stuck_merge] 0 stuck_merge
              eq_refl eq_refl) as (a' & Hl & Hn & _ & Hfail).
  exists a'. split; [exact Hl|]. split; [exact Hn|].
  destruct (Hfail (Nat.lt_succ_diag_r 3)) as [Hs Hlater].
  split; [exact Hs|]. apply Hlater.
Defined.

(** Within the bound the action is pending again and a later [claimAll]
    returns it. *)
Example markFailed_retry_example :
  let a := set_attempt_count 1 stuck_merge in
  markFailed 3 0 [a] = [set_status pending (set_attempt_count 2 a)]
  /\ claimed_ids "tenant-1" (markFailed 3 0 [a]) = [0].
Proof. split; vm_compute; reflexivity. Qed.

End QueueFacts.

(** ** handleProxy: what every request gets *)

Module ProxyCoverage.
Import Proxy Trace Scenario ProxyFacts.

Lemma relay_shape (w : World) (up : UpstreamResponse) :
  relay w up
  = [SetHeaders [("Content-Type", "application/json")];
     Respond (up_status up) (relayed_payload w up)].
Proof.
  unfold relay, relayed_payload.
  destruct (String.eqb (up_text up) ""); [reflexivity|].
  destruct (JSON_parse w (up_text up)); reflexivity.
Qed.

(** The three shapes a trace of [handleProxy] can have. *)
Lemma handleProxy_shapes (w : World) (req : Request) (path : string) :
  (exists status payload, handleProxy w req path = [Respond status payload])
  \/ (exists claims up,
        verifyAuth w req = Return claims
        /\ fetch w (fetchOptions w req path claims (body_object (body req))) = Return up
        /\ handleProxy w req path
           = [Fetch (fetchOptions w req path claims (body_object (body req)));
              SetHeaders [("Content-Type", "application/json")];
              Respond (up_status up) (relayed_payload w up)])
  \/ (exists claims msg,
        verifyAuth w req = Return claims
        /\ fetch w (fetchOptions w req path claims (body_object (body req))) = Throw msg
        /\ handleProxy w req path
           = [Fetch (fetchOptions w req path claims (body_object (body req)));
              Respond (status_of_message msg) (error_payload msg)]).
Proof.
  unfold handleProxy, handleProxy_try.
  destruct (verifyAuth w req) as [claims|msg]; [|left; eauto].
  destruct (isPathAllowed (method req) path); cbn [negb]; [|left; eauto].
  destruct (path_space_denied _ claims); [left; eauto|].
  destruct (enforceSpaceIds _ _) as [[]|msg]; [|left; cbn; eauto].
  destruct (fetch w _) as [up|msg] eqn:Hf.
  - right. left. exists claims, up. rewrite relay_shape. auto.
  - right. right. exists claims, msg. auto.
Qed.

(** X7.  Every request gets exactly one response, and it is the last thing
    the handler does; the upstream is called at most once. *)
Theorem handleProxy_responds_once (w : World) (req : Request) (path : string) :
  List.length (responses (handleProxy w req path)) = 1
  /\ (exists status payload,
        List.last (handleProxy w req path) (SetHeaders []) = Respond status payload)
  /\ List.length (upstream_calls (handleProxy w req path)) <= 1.
Proof.
  destruct (handleProxy_shapes w req path)
    as [(st & p & ->)|[(c & up & _ & _ & ->)|(c & msg & _ & _ & ->)]];
    cbn; repeat split; eauto.
Qed.

(** X8.  Once the upstream has been called, the caller gets the upstream's
    status code unchanged, with the upstream's JSON ([{}] for an empty
    body, an error object for a body that is not JSON); if the call itself
    fails, the caller gets the failure's message under the status the
    message maps to. *)
Theorem handleProxy_relays_status (w : World) (req : Request) (path : string)
    (r : UpstreamRequest) :
  In (Fetch r) (handleProxy w req path) ->
  match fetch w r with
  | Return up =>
      handleProxy w req path
      = [Fetch r; SetHeaders [("Content-Type", "application/json")];
         Respond (up_status up) (relayed_payload w up)]
  | Throw msg =>
      handleProxy w req path
      = [Fetch r; Respond (status_of_message msg) (error_payload msg)]
  end.
Proof.
  destruct (handleProxy_shapes w req path)
    as [(st & p & ->)|[(c & up & _ & Hf & ->)|(c & msg & _ & Hf & ->)]].
  - intros [H|[]]; discriminate.
  - intros [H|[H|[H|[]]]]; try discriminate. inversion H; subst. now rewrite Hf.
  - intros [H|[H|[]]]; try discriminate. inversion H; subst. now rewrite Hf.
Qed.

Lemma handleProxy_relays_status_witness :
  handleProxy deployment hydrate_without_key "/v1/hydrate"
  = [Fetch (fetchOptions deployment hydrate_without_key "/v1/hydrate" alice_claims
              (body_object (body hydrate_without_key)));
     SetHeaders [("Content-Type", "application/json")];
     Respond 200 (JObj ∅)].
Proof.
  apply (handleProxy_relays_status deployment hydrate_without_key "/v1/hydrate"
           (fetchOptions deployment hydrate_without_key "/v1/hydrate" alice_claims
              (body_object (body hydrate_without_key)))).
  vm_compute. auto.
Defined.

(** *** Strings, again *)

Lemma prefix_slice (p s : string) :
  String.prefix p s = true -> s = p +:+ JsString.slice (String.length p) s.
Proof.
  revert s. induction p as [|a p IH]; intros s H; [reflexivity|].
  destruct s as [|b s]; [discriminate|]. simpl in H.
  destruct (ascii_dec a b) as [->|]; [|discriminate].
  cbn [String.length JsString.slice]. rewrite (IH s H) at 1. reflexivity.
Qed.

Lemma slice_app (p s : string) : JsString.slice (String.length p) (p +:+ s) = s.
Proof. induction p as [|a p IH]; [reflexivity|exact IH]. Qed.

Lemma length_app (a b : string) :
  String.length (a +:+ b) = String.length a + String.length b.
Proof.
  induction a as [|x a IH]; [reflexivity|].
  change (S (String.length (a +:+ b)) = S (String.length a + String.length b)).
  now rewrite IH.
Qed.

Lemma app_cancel_r (a b c : string) : a +:+ c = b +:+ c -> a = b.
Proof.
  revert b. induction a as [|x a IH]; intros [|y b] H.
  - reflexivity.
  - apply (f_equal String.length) in H. rewrite !length_app in H.
    cbn [String.length] in H. lia.
  - apply (f_equal String.length) in H. rewrite !length_app in H.
    cbn [String.length] in H. lia.
  - injection H as -> H. now rewrite (IH b H).
Qed.

Lemma no_slash_app_slash (a b : string) : no_slash (a +:+ String "/" b) = false.
Proof.
  induction a as [|x a IH]; [reflexivity|].
  change (negb (is_slash x) && no_slash (a +:+ String "/" b) = false).
  rewrite IH. apply andb_false_r.
Qed.

Lemma app_empty_r (a : string) : a +:+ "" = a.
Proof. induction a as [|x a IH]; [reflexivity|]. now rewrite <- IH at 2. Qed.

(** *** The whitelist, read by cases *)

Lemma isPathAllowed_rule (method path : string) :
  isPathAllowed method path = true ->
  exists r, In r ALLOWED_PATHS /\ rule_method r = method
            /\ match_toks (rule_pattern r) path = true.
Proof.
  unfold isPathAllowed. rewrite existsb_exists. intros (r & Hin & H).
  apply andb_true_iff in H as [Hm Hp]. apply String.eqb_eq in Hm. eauto.
Qed.

(** Every whitelisted path is under [/v1/]. *)
Lemma isPathAllowed_v1 (method path : string) :
  isPathAllowed method path = true -> String.prefix "/v1/" path = true.
Proof.
  intros H. apply isPathAllowed_rule in H as (r & Hin & _ & Hp).
  unfold ALLOWED_PATHS in Hin. cbn [In] in Hin.
  repeat (destruct Hin as [<-|Hin]; [
    cbn [rule_pattern match_toks] in Hp;
    match type of Hp with
    | context [JsString.strip_prefix ?l path] =>
        destruct (JsString.strip_prefix l path) as [rest|] eqn:E; [|discriminate];
        apply strip_prefix_Some in E; subst path; reflexivity
    end |]).
  destruct Hin.
Qed.

(** Under [/v1/spaces/] the whitelist has two entries. *)
Lemma isPathAllowed_under_spaces (method x : string) :
  isPathAllowed method ("/v1/spaces/" +:+ x) = true ->
  (method = "GET" /\ match_toks [Seg] x = true)
  \/ (method = "POST" /\ match_toks [Seg; Lit "/ingest"] x = true).
Proof.
  intros H. apply isPathAllowed_rule in H as (r & Hin & Hm & Hp).
  unfold ALLOWED_PATHS in Hin. cbn [In] in Hin.
  repeat (destruct Hin as [<-|Hin]; [
    cbn [rule_pattern rule_method] in Hp, Hm;
    first [ exfalso; vm_compute in Hp; discriminate Hp
          | left; split; [now symmetry|exact Hp]
          | right; split; [now symmetry|exact Hp] ] |]).
  destruct Hin.
Qed.

Lemma fetch_in_trace (w : World) (req : Request) (path : string) (r : UpstreamRequest) :
  In (Fetch r) (handleProxy w req path) ->
  exists claims,
    verifyAuth w req = Return claims
    /\ r = fetchOptions w req path claims (body_object (body req))
    /\ contacted (handleProxy w req path) = true.
Proof.
  destruct (handleProxy_shapes w req path)
    as [(st & p & ->)|[(c & up & Ha & _ & ->)|(c & msg & Ha & _ & ->)]].
  - intros [H|[]]; discriminate.
  - intros [H|[H|[H|[]]]]; try discriminate. inversion H; subst. eauto.
  - intros [H|[H|[]]]; try discriminate. inversion H; subst. eauto.
Qed.

(** X9.  Every upstream call goes to [https://api.neuralgraph.app] followed
    by the request's path, which is under [/v1/]; it uses the request's
    method; a GET or HEAD carries no body, any other method carries the
    request's body when that is an object or an array and [{}]
    otherwise. *)
Theorem handleProxy_upstream_request (w : World) (req : Request) (path : string)
    (r : UpstreamRequest) :
  In (Fetch r) (handleProxy w req path) ->
  up_url r = "https://api.neuralgraph.app" +:+ path
  /\ String.prefix "/v1/" path = true
  /\ up_method r = method req
  /\ (method req = "GET" \/ method req = "HEAD" -> up_body r = None)
  /\ (method req <> "GET" -> method req <> "HEAD" ->
      up_body r = Some (body_object (body req))).
Proof.
  intros H. apply fetch_in_trace in H as (claims & _ & -> & Hc).
  apply handleProxy_contacted_only_if in Hc as (_ & _ & Hp & _).
  split; [reflexivity|]. split; [now apply isPathAllowed_v1 in Hp|].
  split; [reflexivity|]. cbn [fetchOptions up_body]. split.
  - intros [->| ->]; reflexivity.
  - intros Hg Hh. apply String.eqb_neq in Hg, Hh. now rewrite Hg, Hh.
Qed.

Lemma handleProxy_upstream_request_witness :
  let r := fetchOptions deployment hydrate_without_key "/v1/hydrate" alice_claims
             (body_object (body hydrate_without_key)) in
  up_url r = "https://api.neuralgraph.app/v1/hydrate"
  /\ String.prefix "/v1/" "/v1/hydrate" = true
  /\ up_method r = "POST"
  /\ ("POST" = "GET" \/ "POST" = "HEAD" -> up_body r = None)
  /\ ("POST" <> "GET" -> "POST" <> "HEAD" ->
      up_body r = Some (body_object (body hydrate_without_key))).
Proof.
  cbv zeta.
  apply (handleProxy_upstream_request deployment hydrate_without_key "/v1/hydrate").
  vm_compute. auto.
Defined.

(** X10.  [verifyAuth] returns claims exactly when the [authorization]
    header is ["Bearer "] followed by a token that [verifyIdToken]
    accepts, and the decoded token carries a non-empty [ngTenant], a
    non-empty [ngUserId] and an [ngSpaceIds]; the claims are the token's. *)
Theorem verifyAuth_accepts_exactly (w : World) (req : Request) (claims : UserClaims) :
  verifyAuth w req = Return claims <->
  exists token decoded,
    headers req !! "authorization" = Some ("Bearer " +:+ token)
    /\ verifyIdToken w token = Return decoded
    /\ tok_ngTenant decoded = Some (ngTenant claims)
    /\ tok_ngUserId decoded = Some (ngUserId claims)
    /\ tok_ngSpaceIds decoded = Some (ngSpaceIds claims)
    /\ ngTenant claims <> "" /\ ngUserId claims <> "".
Proof.
  unfold verifyAuth. split.
  - destruct (headers req !! "authorization") as [h|]; [|discriminate].
    destruct (JsString.startsWith h "Bearer ") eqn:Hb; [|discriminate].
    apply (prefix_slice "Bearer " h) in Hb. cbn [String.length] in Hb.
    destruct (verifyIdToken w (JsString.slice 7 h)) as [d|msg] eqn:Hv; [|discriminate].
    cbn. destruct (tok_ngTenant d) as [t|] eqn:Ht; [|discriminate].
    destruct (tok_ngUserId d) as [u|] eqn:Hu; [|discriminate].
    destruct (tok_ngSpaceIds d) as [ids|] eqn:Hi; [|discriminate].
    cbn [truthy]. destruct (String.eqb_spec t ""); [discriminate|].
    destruct (String.eqb_spec u ""); [discriminate|]. cbn.
    intros [= <-]. exists (JsString.slice 7 h), d. cbn.
    repeat split; auto. exact (f_equal Some Hb).
  - intros (token & d & Hh & Hv & Ht & Hu & Hi & Hnt & Hnu).
    rewrite Hh. unfold JsString.startsWith. rewrite prefix_app.
    change 7 with (String.length "Bearer "). rewrite slice_app, Hv. cbn.
    rewrite Ht, Hu, Hi. cbn [truthy].
    rewrite (eqb_empty_false _ Hnt), (eqb_empty_false _ Hnu). cbn.
    now destruct claims.
Qed.

(** X11.  A token that verifies but lacks one of the three claims (or
    carries an empty tenant or user id) is answered 401 with
    "Missing sandbox claims", whatever the method and the path. *)
Theorem handleProxy_missing_claims_401 (w : World) (req : Request) (path token : string)
    (decoded : DecodedToken) :
  headers req !! "authorization" = Some ("Bearer " +:+ token) ->
  verifyIdToken w token = Return decoded ->
  truthy (tok_ngTenant decoded) = false
  \/ truthy (tok_ngUserId decoded) = false
  \/ tok_ngSpaceIds decoded = None ->
  handleProxy w req path
  = [Respond 401 (error_payload "Missing sandbox claims — contact admin for access")].
Proof.
  intros Hh Hv Hmiss.
  assert (Ha : verifyAuth w req
               = Throw "Missing sandbox claims — contact admin for access").
  { unfold verifyAuth. rewrite Hh. unfold JsString.startsWith. rewrite prefix_app.
    change 7 with (String.length "Bearer "). rewrite slice_app, Hv. cbn.
    destruct (tok_ngTenant decoded) as [t|]; [|reflexivity].
    destruct (tok_ngUserId decoded) as [u|]; [|reflexivity].
    destruct (tok_ngSpaceIds decoded) as [ids|]; [|reflexivity].
    cbn [truthy] in Hmiss.
    destruct Hmiss as [H|[H|H]]; [| |discriminate]; rewrite H;
      [reflexivity | now rewrite andb_false_r]. }
  unfold handleProxy, handleProxy_try. rewrite Ha. reflexivity.
Qed.

Lemma handleProxy_missing_claims_401_witness :
  handleProxy
    {| verifyIdToken := fun _ =>
         Return {| tok_ngTenant := Some "tenant-1"; tok_ngUserId := Some "carol-uid";
                   tok_ngSpaceIds := None |};
       ngApiKey := "ng-api-key";
       fetch := fun _ => Return {| up_status := 200; up_text := "{}" |};
       JSON_parse := fun _ => Some (JObj ∅) |}
    {| method := "GET"; headers := {[ "authorization" := "Bearer carol-id-token" ]};
       body := None |}
    "/v1/health"
  = [Respond 401 (error_payload "Missing sandbox claims — contact admin for access")].
Proof.
  eapply (handleProxy_missing_claims_401 _ _ "/v1/health" "carol-id-token").
  - reflexivity.
  - reflexivity.
  - right. right. reflexivity.
Defined.

(** X12.  Among the whitelisted requests, the only one in whose path
    [extractSpaceIdFromPath] finds a space id is the ingestion
    [POST /v1/spaces/<id>/ingest]. *)
Theorem only_ingest_has_path_space (method path id : string) :
  isPathAllowed method path = true ->
  extractSpaceIdFromPath path = Some id ->
  method = "POST" /\ path = "/v1/spaces/" +:+ id +:+ "/ingest".
Proof.
  intros Hp Hid.
  apply extractSpaceIdFromPath_spec in Hid as (Hne & Hns & rest & ->).
  assert (Hspan : span_seg (id +:+ "/" +:+ rest) = (id, "/" +:+ rest))
    by (apply span_seg_app; [exact Hns | right; eexists; reflexivity]).
  apply isPathAllowed_under_spaces in Hp as [[_ H]|[-> H]];
    cbn [match_toks] in H; rewrite Hspan, (eqb_empty_false _ Hne) in H.
  - discriminate.
  - split; [reflexivity|].
    destruct (JsString.strip_prefix "/ingest" ("/" +:+ rest)) as [r|] eqn:E; [|discriminate].
    apply String.eqb_eq in H. subst r. apply strip_prefix_Some in E.
    now rewrite E.
Qed.

Lemma only_ingest_has_path_space_witness :
  "POST" = "POST" /\ "/v1/spaces/alice-space/ingest" = "/v1/spaces/" +:+ "alice-space" +:+ "/ingest".
Proof.
  apply (only_ingest_has_path_space "POST" "/v1/spaces/alice-space/ingest" "alice-space");
    reflexivity.
Defined.

(** X13.  Content is ingested only into the caller's own spaces:
    [/v1/spaces/<sid>/ingest] reaches the upstream only as a POST by a
    caller whose [ngSpaceIds] holds [sid]. *)
Theorem ingest_requires_own_space (w : World) (req : Request) (sid : string) :
  contacted (handleProxy w req ("/v1/spaces/" +:+ sid +:+ "/ingest")) = true ->
  method req = "POST"
  /\ exists claims, verifyAuth w req = Return claims /\ In sid (ngSpaceIds claims).
Proof.
  intros H. apply handleProxy_contacted_only_if in H as (claims & Ha & Hp & Hd & _).
  apply isPathAllowed_under_spaces in Hp as [[_ H]|[Hm H]].
  - apply match_toks_spells in H; [|reflexivity].
    inversion H as [| |seg ts r Hne Hns Hr]; subst. inversion Hr; subst.
    match goal with Heq : seg +:+ _ = _ |- _ =>
      rewrite app_empty_r in Heq; subst seg end.
    change (sid +:+ "/ingest") with (sid +:+ String "/" "ingest") in Hns.
    now rewrite no_slash_app_slash in Hns.
  - split; [exact Hm|]. exists claims. split; [exact Ha|].
    apply match_toks_spells in H; [|reflexivity].
    inversion H as [| |seg ts r Hne Hns Hr]; subst.
    inversion Hr as [|p ts' r' Hr'|]; subst. inversion Hr'; subst.
    match goal with Heq : seg +:+ _ = _ |- _ =>
      rewrite app_empty_r in Heq; apply app_cancel_r in Heq; subst seg end.
    assert (Hid : extractSpaceIdFromPath ("/v1/spaces/" +:+ sid +:+ "/ingest") = Some sid).
    { apply extractSpaceIdFromPath_spec. repeat split; auto. now exists "ingest". }
    rewrite Hid in Hd. cbn in Hd. rewrite (eqb_empty_false _ Hne) in Hd. cbn in Hd.
    apply negb_false_iff in Hd. now apply existsb_eqb_In.
Qed.

Lemma ingest_requires_own_space_witness :
  "POST" = "POST"
  /\ exists claims,
       verifyAuth deployment hydrate_without_key = Return claims
       /\ In "alice-space" (ngSpaceIds claims).
Proof.
  apply (ingest_requires_own_space deployment hydrate_without_key "alice-space").
  vm_compute. reflexivity.
Defined.

End ProxyCoverage.

(** ** The chat endpoint *)

Module ChatFacts.
Import Proxy Chat.

Lemma read_prop_Some (j : json) (k : string) (v : option json) :
  Js.read_prop (Some j) k = Return v -> j <> JNull /\ v = get_prop j k.
Proof. destruct j; cbn; intros [= <-]; split; congruence. Qed.

Lemma read_prop_body (b : option json) (k : string) (v : option json) :
  Js.read_prop b k = Return v ->
  exists j, b = Some j /\ j <> JNull /\ v = get_prop j k.
Proof.
  destruct b as [j|]; [|discriminate]. intros H.
  apply read_prop_Some in H. exists j. tauto.
Qed.

(** [convert] keeps the messages in order, one for one. *)
Lemma convert_spec (messages : list json) (converted : list Message) :
  convert messages = Return converted ->
  Forall2 (fun m c => msg_role c = get_prop m "role"
                      /\ msg_content c = get_prop m "content")
    messages converted.
Proof.
  revert converted. induction messages as [|m rest IH]; intros converted.
  - intros [= <-]. constructor.
  - cbn [convert].
    destruct (Js.read_prop (Some m) "role") as [role|] eqn:Hr; [|discriminate].
    destruct (Js.read_prop (Some m) "content") as [content|] eqn:Hc; [|discriminate].
    destruct (convert rest) as [rest'|]; [|discriminate].
    cbn. intros [= <-]. constructor; [|now apply IH].
    apply read_prop_Some in Hr as [_ ->]. apply read_prop_Some in Hc as [_ ->].
    split; reflexivity.
Qed.

Lemma status_of_message_not_200 (msg : string) : status_of_message msg <> 200.
Proof. unfold status_of_message. destruct (_ || _); discriminate. Qed.

(** The shapes a trace of [handleChat] can have. *)
Lemma handleChat_shapes (w : World) (cw : ChatWorld) (req : Request) :
  (exists status payload,
      handleChat w cw req = [Respond status payload] /\ status <> 200)
  \/ (exists claims b messages converted,
        method req = "POST"
        /\ verifyAuth w req = Return claims
        /\ body req = Some b
        /\ get_prop b "messages" = Some (JArr messages)
        /\ convert messages = Return converted
        /\ let r := completion_request cw
                      (Js.or_else (get_prop b "system_prompt") (JStr "")) converted in
           (exists content,
               completions_create cw r = Return content
               /\ handleChat w cw req
                  = [Completion r; Respond 200 (chat_response (default "" content))])
           \/ (exists msg,
                  completions_create cw r = Throw msg
                  /\ handleChat w cw req
                     = [Completion r;
                        Respond (status_of_message msg) (error_payload msg)])).
Proof.
  unfold handleChat, handleChat_try.
  destruct (String.eqb_spec (method req) "POST") as [Hm|Hm]; cbn [negb];
    [|left; eexists _, _; split; [reflexivity|discriminate]].
  destruct (verifyAuth w req) as [claims|msg];
    [|left; eexists _, _; split; [reflexivity|apply status_of_message_not_200]].
  destruct (Js.read_prop (body req) "messages") as [messages|msg] eqn:Hmsgs;
    [|left; eexists _, _; split; [reflexivity|apply status_of_message_not_200]].
  apply read_prop_body in Hmsgs as (b & Hb & Hnull & ->).
  destruct (get_prop b "messages") as [[| | | |messages|]|] eqn:Hget;
    try (left; eexists _, _; split; [reflexivity|discriminate]).
  rewrite Hb. destruct b; try discriminate. cbn [Js.read_prop].
  unfold chatAzureOpenAI.
  destruct (convert messages) as [converted|msg] eqn:Hconv;
    [|left; eexists _, _; split; [reflexivity|apply status_of_message_not_200]].
  right. exists claims, (JObj fields), messages, converted.
  repeat (split; [assumption || reflexivity|]). cbv zeta.
  destruct (completions_create cw _) as [content|msg] eqn:Hc.
  - left. exists content. split; reflexivity.
  - right. exists msg. split; reflexivity.
Qed.

(** X14.  The completion API is called only for a POST whose token
    verified and whose body holds a [messages] array.  It is then called
    with the model [gpt-4o], at most 4096 tokens, and one system message,
    holding [system_prompt] or [""], followed by the caller's messages, one
    for one and in order, each reduced to its [role] and [content]. *)
Theorem handleChat_completion (w : World) (cw : ChatWorld) (req : Request)
    (r : CompletionRequest) :
  In (Completion r) (handleChat w cw req) ->
  method req = "POST"
  /\ (exists claims, verifyAuth w req = Return claims)
  /\ exists b messages converted,
       body req = Some b
       /\ get_prop b "messages" = Some (JArr messages)
       /\ cr_model r = "gpt-4o" /\ cr_max_tokens r = 4096
       /\ cr_messages r
          = {| msg_role := Some (JStr "system");
               msg_content :=
                 Some (Js.or_else (get_prop b "system_prompt") (JStr "")) |}
            :: converted
       /\ Forall2 (fun m c => msg_role c = get_prop m "role"
                              /\ msg_content c = get_prop m "content")
            messages converted.
Proof.
  destruct (handleChat_shapes w cw req)
    as [(st & p & -> & _)|(claims & b & messages & converted & Hm & Ha & Hb & Hg & Hc & H)].
  - intros [H|[]]; discriminate.
  - cbv zeta in H. intros Hin.
    assert (Hr : r = completion_request cw
                       (Js.or_else (get_prop b "system_prompt") (JStr "")) converted).
    { destruct H as [(content & _ & Ht)|(msg & _ & Ht)]; rewrite Ht in Hin;
        destruct Hin as [Hin|[Hin|[]]]; try discriminate; now inversion Hin. }
    subst r. split; [exact Hm|]. split; [eauto|].
    exists b, messages, converted. repeat split; auto. now apply convert_spec.
Qed.

(** X15.  [handleChat] answers every request exactly once, as the last
    thing it does, and calls the completion API at most once. *)
Theorem handleChat_responds_once (w : World) (cw : ChatWorld) (req : Request) :
  List.length (List.filter is_respond (handleChat w cw req)) = 1
  /\ (exists status payload,
        List.last (handleChat w cw req) (Respond 0 JNull) = Respond status payload)
  /\ List.length (List.filter is_completion (handleChat w cw req)) <= 1.
Proof.
  destruct (handleChat_shapes w cw req)
    as [(st & p & -> & _)|(claims & b & messages & converted & _ & _ & _ & _ & _ & H)].
  - cbn. repeat split; eauto.
  - cbv zeta in H. destruct H as [(content & _ & ->)|(msg & _ & ->)];
      cbn; repeat split; eauto.
Qed.

(** X16.  A 200 is sent only after the completion API was called and
    answered; its body is then the completion's content ([""] when there is
    none) with the provider [azure_openai] and the model [gpt-4o]. *)
Theorem handleChat_200 (w : World) (cw : ChatWorld) (req : Request) (payload : json) :
  In (Respond 200 payload) (handleChat w cw req) ->
  exists r content,
    In (Completion r) (handleChat w cw req)
    /\ completions_create cw r = Return content
    /\ payload = JObj {[ "content" := JStr (default "" content);
                         "provider" := JStr "azure_openai";
                         "model" := JStr "gpt-4o" ]}.
Proof.
  destruct (handleChat_shapes w cw req)
    as [(st & p & -> & Hst)|(claims & b & messages & converted & _ & _ & _ & _ & _ & H)].
  - intros [H|[]]. inversion H; subst. now elim Hst.
  - cbv zeta in H. destruct H as [(content & Hc & ->)|(msg & _ & ->)].
    + intros [H|[H|[]]]; try discriminate. inversion H; subst.
      eexists _, content. split; [now left|]. split; [exact Hc|reflexivity].
    + intros [H|[H|[]]]; try discriminate. inversion H as [[Hst Hp]].
      now elim (status_of_message_not_200 msg).
Qed.

Lemma handleChat_200_witness :
  exists r content,
    In (Completion r)
      (handleChat Scenario.deployment Scenario2.chat_world Scenario2.chat_request)
    /\ completions_create Scenario2.chat_world r = Return content
    /\ JObj {[ "content" := JStr "Hello"; "provider" := JStr "azure_openai";
               "model" := JStr "gpt-4o" ]}
       = JObj {[ "content" := JStr (default "" content);
                 "provider" := JStr "azure_openai";
                 "model" := JStr "gpt-4o" ]}.
Proof.
  apply (handleChat_200 Scenario.deployment Scenario2.chat_world Scenario2.chat_request).
  vm_compute. auto.
Defined.

Lemma handleChat_completion_witness :
  let r := completion_request Scenario2.chat_world (JStr "Be brief.")
             [{| msg_role := Some (JStr "user"); msg_content := Some (JStr "Hi") |}] in
  method Scenario2.chat_request = "POST"
  /\ (exists claims, verifyAuth Scenario.deployment Scenario2.chat_request = Return claims)
  /\ exists b messages converted,
       body Scenario2.chat_request = Some b
       /\ get_prop b "messages" = Some (JArr messages)
       /\ cr_model r = "gpt-4o" /\ cr_max_tokens r = 4096
       /\ cr_messages r
          = {| msg_role := Some (JStr "system");
               msg_content :=
                 Some (Js.or_else (get_prop b "system_prompt") (JStr "")) |}
            :: converted
       /\ Forall2 (fun m c => msg_role c = get_prop m "role"
                              /\ msg_content c = get_prop m "content")
            messages converted.
Proof.
  cbv zeta.
  apply (handleChat_completion Scenario.deployment Scenario2.chat_world
           Scenario2.chat_request).
  vm_compute. auto.
Defined.

End ChatFacts.

(** ** Creating a space *)

Module CreateSpaceFacts.
Import Proxy CreateSpace.

(** Who [authenticate] lets in. *)
Lemma authenticate_spec (w : World) (aw : AdminWorld) (req : Request) (caller : Caller) :
  authenticate w aw req = Return caller ->
  exists token decoded,
    headers req !! "authorization" = Some ("Bearer " +:+ token)
    /\ verifyIdToken w token = Return decoded
    /\ caller_uid caller = uid_of_token aw token
    /\ tok_ngTenant decoded = Some (ngTenant (caller_claims caller))
    /\ tok_ngUserId decoded = Some (ngUserId (caller_claims caller))
    /\ ngSpaceIds (caller_claims caller) = default [] (tok_ngSpaceIds decoded)
    /\ ngTenant (caller_claims caller) <> ""
    /\ ngUserId (caller_claims caller) <> "".
Proof.
  unfold authenticate.
  destruct (headers req !! "authorization") as [h|]; [|cbn; discriminate].
  change (default "" (Some h)) with h.
  destruct (JsString.startsWith h "Bearer ") eqn:Hb; [|discriminate].
  apply (ProxyCoverage.prefix_slice "Bearer " h) in Hb. cbn [String.length] in Hb.
  destruct (verifyIdToken w (JsString.slice 7 h)) as [d|msg] eqn:Hv; [|discriminate].
  cbn. destruct (tok_ngTenant d) as [t|] eqn:Ht; cbn; [|discriminate].
  destruct (tok_ngUserId d) as [u|] eqn:Hu; cbn; [|now rewrite andb_false_r].
  destruct (String.eqb_spec t ""); [discriminate|].
  destruct (String.eqb_spec u ""); [discriminate|]. cbn.
  intros [= <-]. exists (JsString.slice 7 h), d. cbn.
  repeat split; auto. exact (f_equal Some Hb).
Qed.

Lemma status_not_201 (msg : string) : Chat.status_of_message msg <> 201.
Proof. unfold Chat.status_of_message. destruct (_ || _); discriminate. Qed.

(** The shapes a trace of [handleCreateSpace] can have. *)
Lemma handleCreateSpace_shapes (w : World) (aw : AdminWorld) (req : Request) :
  (exists status payload, handleCreateSpace w aw req = [Respond status payload])
  \/ exists caller,
       method req = "POST"
       /\ authenticate w aw req = Return caller
       /\ let r := create_request w req (caller_claims caller) in
          (exists status payload,
              handleCreateSpace w aw req = [Fetch r; Respond status payload]
              /\ (status = 201 -> exists up, fetch w r = Return up /\ up_status up = 201))
          \/ exists up respBody,
               fetch w r = Return up /\ ok up = true
               /\ JSON_parse w (up_text up) = Some respBody
               /\ ((is_new (caller_claims caller) (get_prop respBody "id") = false
                    /\ handleCreateSpace w aw req
                       = [Fetch r; SetHeaders [("Content-Type", "application/json")];
                          Respond 201 respBody])
                   \/ exists newSpaceId,
                        get_prop respBody "id" = Some newSpaceId
                        /\ Js.truthy newSpaceId = true
                        /\ includes_id (ngSpaceIds (caller_claims caller)) newSpaceId = false
                        /\ let claims := grown_claims (caller_claims caller) newSpaceId in
                           (exists msg,
                               setCustomUserClaims aw (caller_uid caller) claims = Throw msg
                               /\ handleCreateSpace w aw req
                                  = [Fetch r; SetClaims (caller_uid caller) claims;
                                     Respond (Chat.status_of_message msg) (error_payload msg)])
                           \/ (setCustomUserClaims aw (caller_uid caller) claims = Return tt
                               /\ handleCreateSpace w aw req
                                  = [Fetch r; SetClaims (caller_uid caller) claims;
                                     SetHeaders [("Content-Type", "application/json")];
                                     Respond 201 respBody])).
Proof.
  unfold handleCreateSpace, handleCreateSpace_try.
  destruct (String.eqb_spec (method req) "POST") as [Hm|Hm]; cbn [negb]; [|left; eauto].
  destruct (authenticate w aw req) as [caller|msg]; [|left; eauto].
  right. exists caller. split; [exact Hm|]. split; [reflexivity|]. cbv zeta.
  destruct (fetch w _) as [up|msg] eqn:Hf.
  2:{ left. eexists _, _. split; [reflexivity|].
      intros H. now elim (status_not_201 msg). }
  destruct (JSON_parse w (up_text up)) as [respBody|] eqn:Hp.
  2:{ left. eexists _, _. split; [reflexivity|]. eauto. }
  destruct (ok up) eqn:Hok; cbn [negb].
  2:{ left. eexists _, _. split; [reflexivity|]. eauto. }
  unfold record_space.
  destruct (Js.read_prop (Some respBody) "id") as [newSpaceId|msg] eqn:Hid.
  2:{ left. eexists _, _. split; [reflexivity|].
      intros H. now elim (status_not_201 msg). }
  apply ChatFacts.read_prop_Some in Hid as [_ ->].
  right. exists up, respBody. repeat (split; [assumption || reflexivity|]).
  destruct (is_new (caller_claims caller) (get_prop respBody "id")) eqn:Hnew.
  2:{ left. split; reflexivity. }
  right. unfold is_new in Hnew.
  destruct (get_prop respBody "id") as [newSpaceId|]; [|discriminate].
  apply andb_true_iff in Hnew as [Ht Hi]. apply negb_true_iff in Hi.
  exists newSpaceId. repeat (split; [assumption || reflexivity|]). cbv zeta. cbn [default].
  destruct (setCustomUserClaims aw _ _) as [[]|msg] eqn:Hs.
  - right. split; reflexivity.
  - left. exists msg. split; reflexivity.
Qed.

Lemma or_else_truthy (v : option json) (d : json) :
  Js.truthy d = true -> Js.truthy (Js.or_else v d) = true.
Proof.
  intros Hd. unfold Js.or_else. destruct v as [j|]; [|exact Hd].
  destruct (Js.truthy j) eqn:Hj; [exact Hj|exact Hd].
Qed.

(** Whatever is handed to [setCustomUserClaims] ends in a truthy new id. *)
Lemma claims_grow_shape (w : World) (aw : AdminWorld) (req : Request)
    (uid : string) (claims : NewClaims) :
  In (SetClaims uid claims) (handleCreateSpace w aw req) ->
  exists old newSpaceId,
    nc_ngSpaceIds claims = old ++ [newSpaceId] /\ Js.truthy newSpaceId = true.
Proof.
  destruct (handleCreateSpace_shapes w aw req) as [(st & p & ->)|(caller & Hm & Ha & H)].
  { intros [H|[]]; discriminate. }
  cbv zeta in H. destruct H as [(st & p & -> & _)|(up & respBody & Hf & Hok & Hp & H)].
  { intros [H|[H|[]]]; discriminate. }
  destruct H as [[_ ->]|(newSpaceId & Hid & Ht & Hi & H)].
  { intros [H|[H|[H|[]]]]; discriminate. }
  cbv zeta in H. intros Hin.
  exists (JStr <$> ngSpaceIds (caller_claims caller)), newSpaceId.
  split; [|exact Ht].
  destruct H as [(msg & _ & Ht')|[_ Ht']]; rewrite Ht' in Hin;
    [destruct Hin as [Hin|[Hin|[Hin|[]]]] | destruct Hin as [Hin|[Hin|[Hin|[Hin|[]]]]]];
    try discriminate; now inversion Hin.
Qed.

(** X17.  [setCustomUserClaims] is called only when a POST with a verified
    token got a 2xx JSON answer from the upstream whose [id] is truthy and
    not yet among the caller's space ids.  It is called for the token's
    uid, with the tenant and the user id unchanged and the space ids the
    caller had, in order, followed by the new id. *)
Theorem claims_grow_only_on_success (w : World) (aw : AdminWorld) (req : Request)
    (uid : string) (claims : NewClaims) :
  In (SetClaims uid claims) (handleCreateSpace w aw req) ->
  method req = "POST"
  /\ exists token decoded r up respBody newSpaceId,
       headers req !! "authorization" = Some ("Bearer " +:+ token)
       /\ verifyIdToken w token = Return decoded
       /\ uid = uid_of_token aw token
       /\ In (Fetch r) (handleCreateSpace w aw req)
       /\ fetch w r = Return up
       /\ 200 <= up_status up <= 299
       /\ JSON_parse w (up_text up) = Some respBody
       /\ get_prop respBody "id" = Some newSpaceId
       /\ Js.truthy newSpaceId = true
       /\ includes_id (default [] (tok_ngSpaceIds decoded)) newSpaceId = false
       /\ tok_ngTenant decoded = Some (nc_ngTenant claims)
       /\ tok_ngUserId decoded = Some (nc_ngUserId claims)
       /\ nc_ngSpaceIds claims
          = (JStr <$> default [] (tok_ngSpaceIds decoded)) ++ [newSpaceId].
Proof.
  destruct (handleCreateSpace_shapes w aw req) as [(st & p & ->)|(caller & Hm & Ha & H)].
  { intros [H|[]]; discriminate. }
  cbv zeta in H. destruct H as [(st & p & -> & _)|(up & respBody & Hf & Hok & Hp & H)].
  { intros [H|[H|[]]]; discriminate. }
  destruct H as [[_ ->]|(newSpaceId & Hid & Ht & Hi & H)].
  { intros [H|[H|[H|[]]]]; discriminate. }
  apply authenticate_spec in Ha as (token & d & Hh & Hv & Hu & Htn & Hus & Hids & _ & _).
  cbv zeta in H. intros Hin.
  assert (Hc : uid = caller_uid caller
               /\ claims = grown_claims (caller_claims caller) newSpaceId
               /\ In (Fetch (create_request w req (caller_claims caller)))
                     (handleCreateSpace w aw req)).
  { destruct H as [(msg & _ & Ht')|[_ Ht']]; rewrite Ht' in Hin |- *;
      [destruct Hin as [Hin|[Hin|[Hin|[]]]] | destruct Hin as [Hin|[Hin|[Hin|[Hin|[]]]]]];
      try discriminate; inversion Hin; subst; repeat split; now left. }
  destruct Hc as (-> & -> & Hfetch). split; [exact Hm|].
  exists token, d, (create_request w req (caller_claims caller)), up, respBody, newSpaceId.
  unfold ok in Hok. apply andb_true_iff in Hok as [Hlo Hhi].
  apply Nat.leb_le in Hlo, Hhi. rewrite <- Hids. cbn [grown_claims nc_ngTenant nc_ngUserId nc_ngSpaceIds].
  repeat split; auto.
Qed.

Lemma claims_grow_only_on_success_witness :
  "POST" = "POST"
  /\ exists token decoded r up respBody newSpaceId,
       headers Scenario2.create_space_request !! "authorization" = Some ("Bearer " +:+ token)
       /\ verifyIdToken Scenario2.creating token = Return decoded
       /\ "alice-firebase-uid" = uid_of_token Scenario2.admin token
       /\ In (Fetch r)
            (handleCreateSpace Scenario2.creating Scenario2.admin
               Scenario2.create_space_request)
       /\ fetch Scenario2.creating r = Return up
       /\ 200 <= up_status up <= 299
       /\ JSON_parse Scenario2.creating (up_text up) = Some respBody
       /\ get_prop respBody "id" = Some newSpaceId
       /\ Js.truthy newSpaceId = true
       /\ includes_id (default [] (tok_ngSpaceIds decoded)) newSpaceId = false
       /\ tok_ngTenant decoded = Some "tenant-1"
       /\ tok_ngUserId decoded = Some "alice-uid"
       /\ [JStr "alice-space"; JStr "new-space"]
          = (JStr <$> default [] (tok_ngSpaceIds decoded)) ++ [newSpaceId].
Proof.
  apply (claims_grow_only_on_success Scenario2.creating Scenario2.admin
           Scenario2.create_space_request "alice-firebase-uid"
           {| nc_ngTenant := "tenant-1"; nc_ngUserId := "alice-uid";
              nc_ngSpaceIds := [JStr "alice-space"; JStr "new-space"] |}).
  vm_compute. auto.
Defined.

(** X18.  The space is always created for the caller: the upstream call is
    a POST to [/v1/spaces] whose body has exactly the fields [name],
    [space_type] and [owner_id]; [owner_id] is the token's [ngUserId],
    whatever the request body says, and [name] and [space_type] are never
    empty. *)
Theorem space_owner_is_caller (w : World) (aw : AdminWorld) (req : Request)
    (r : UpstreamRequest) :
  In (Fetch r) (handleCreateSpace w aw req) ->
  exists token decoded user fields,
    headers req !! "authorization" = Some ("Bearer " +:+ token)
    /\ verifyIdToken w token = Return decoded
    /\ tok_ngUserId decoded = Some user
    /\ up_url r = "https://api.neuralgraph.app/v1/spaces"
    /\ up_method r = "POST"
    /\ up_body r = Some (JObj fields)
    /\ fields !! "owner_id" = Some (JStr user)
    /\ (exists name, fields !! "name" = Some name /\ Js.truthy name = true)
    /\ (exists type, fields !! "space_type" = Some type /\ Js.truthy type = true)
    /\ (forall k, is_Some (fields !! k) ->
                  k = "name" \/ k = "space_type" \/ k = "owner_id").
Proof.
  destruct (handleCreateSpace_shapes w aw req) as [(st & p & ->)|(caller & Hm & Ha & H)].
  { intros [H|[]]; discriminate. }
  intros Hin.
  assert (Hr : r = create_request w req (caller_claims caller)).
  { cbv zeta in H.
    destruct H as [(st & p & Ht & _)|(up & respBody & _ & _ & _ & H)].
    - rewrite Ht in Hin. destruct Hin as [Hin|[Hin|[]]]; try discriminate. now inversion Hin.
    - destruct H as [[_ Ht]|(newSpaceId & _ & _ & _ & H)].
      + rewrite Ht in Hin.
        destruct Hin as [Hin|[Hin|[Hin|[]]]]; try discriminate. now inversion Hin.
      + cbv zeta in H. destruct H as [(msg & _ & Ht)|[_ Ht]]; rewrite Ht in Hin;
          [destruct Hin as [Hin|[Hin|[Hin|[]]]] | destruct Hin as [Hin|[Hin|[Hin|[Hin|[]]]]]];
          try discriminate; now inversion Hin. }
  subst r.
  apply authenticate_spec in Ha as (token & d & Hh & Hv & _ & _ & Hus & _ & _ & _).
  exists token, d, (ngUserId (caller_claims caller)). eexists.
  do 6 (split; [eassumption || reflexivity|]).
  split; [|split; [|split]].
  - now rewrite lookup_insert_ne, lookup_insert_ne, lookup_singleton_eq by discriminate.
  - eexists. split; [apply lookup_insert_eq|]. now apply or_else_truthy.
  - eexists. split; [rewrite lookup_insert_ne by discriminate; apply lookup_insert_eq|].
    now apply or_else_truthy.
  - intros k [v Hk].
    destruct (decide (k = "name")) as [->|H1]; [now left|].
    destruct (decide (k = "space_type")) as [->|H2]; [now right; left|].
    destruct (decide (k = "owner_id")) as [->|H3]; [now right; right|].
    rewrite lookup_insert_ne, lookup_insert_ne, lookup_singleton_ne in Hk by congruence.
    discriminate.
Qed.

Lemma space_owner_is_caller_witness :
  exists token decoded user fields,
    headers Scenario2.create_space_request !! "authorization" = Some ("Bearer " +:+ token)
    /\ verifyIdToken Scenario2.creating token = Return decoded
    /\ tok_ngUserId decoded = Some user
    /\ up_url (create_request Scenario2.creating Scenario2.create_space_request
                 Scenario.alice_claims)
       = "https://api.neuralgraph.app/v1/spaces"
    /\ up_method (create_request Scenario2.creating Scenario2.create_space_request
                    Scenario.alice_claims) = "POST"
    /\ up_body (create_request Scenario2.creating Scenario2.create_space_request
                  Scenario.alice_claims) = Some (JObj fields)
    /\ fields !! "owner_id" = Some (JStr user)
    /\ (exists name, fields !! "name" = Some name /\ Js.truthy name = true)
    /\ (exists type, fields !! "space_type" = Some type /\ Js.truthy type = true)
    /\ (forall k, is_Some (fields !! k) ->
                  k = "name" \/ k = "space_type" \/ k = "owner_id").
Proof.
  apply (space_owner_is_caller Scenario2.creating Scenario2.admin
           Scenario2.create_space_request).
  vm_compute. auto.
Defined.

(** X19.  [handleCreateSpace] answers every request exactly once, as the
    last thing it does. *)
Theorem handleCreateSpace_responds_once (w : World) (aw : AdminWorld) (req : Request) :
  List.length (List.filter is_respond (handleCreateSpace w aw req)) = 1
  /\ exists status payload,
       List.last (handleCreateSpace w aw req) (SetHeaders []) = Respond status payload.
Proof.
  destruct (handleCreateSpace_shapes w aw req) as [(st & p & ->)|(caller & _ & _ & H)].
  { cbn. eauto. }
  cbv zeta in H. destruct H as [(st & p & -> & _)|(up & respBody & _ & _ & _ & H)].
  { cbn. eauto. }
  destruct H as [[_ ->]|(newSpaceId & _ & _ & _ & H)].
  { cbn. eauto. }
  cbv zeta in H. destruct H as [(msg & _ & ->)|[_ ->]]; cbn; eauto.
Qed.

End CreateSpaceFacts.

(** ** Ingestion, end to end *)

Module IngestFacts.
Import Proxy.

Lemma ingest_allowed (sid : string) :
  sid <> "" -> no_slash sid = true ->
  isPathAllowed "POST" ("/v1/spaces/" +:+ sid +:+ "/ingest") = true.
Proof.
  intros Hne Hns. unfold isPathAllowed. apply existsb_exists.
  exists {| rule_method := "POST";
            rule_pattern := [Lit "/v1/spaces/"; Seg; Lit "/ingest"] |}.
  split; [unfold ALLOWED_PATHS; cbn [In]; tauto|].
  cbn [rule_method rule_pattern match_toks].
  rewrite strip_prefix_app.
  rewrite (span_seg_app sid "/ingest" Hns) by (right; eexists; reflexivity).
  now rewrite (eqb_empty_false _ Hne).
Qed.

Lemma ingest_path_space (sid : string) :
  sid <> "" -> no_slash sid = true ->
  extractSpaceIdFromPath ("/v1/spaces/" +:+ sid +:+ "/ingest") = Some sid.
Proof.
  intros Hne Hns. apply ProxyFacts.extractSpaceIdFromPath_spec.
  repeat split; auto. now exists "ingest".
Qed.

Lemma ingest_forwarded (w : World) (req : Request) (claims : UserClaims) (sid : string) :
  method req = "POST" ->
  verifyAuth w req = Return claims ->
  sid <> "" -> no_slash sid = true ->
  In sid (ngSpaceIds claims) ->
  enforceSpaceIds (body_object (body req)) (ngSpaceIds claims) = Return tt ->
  contacted (handleProxy w req ("/v1/spaces/" +:+ sid +:+ "/ingest")) = true.
Proof.
  intros Hm Ha Hne Hns Hin He. unfold handleProxy, handleProxy_try.
  rewrite Ha, Hm, (ingest_allowed _ Hne Hns), (ingest_path_space _ Hne Hns).
  cbn [negb path_space_denied]. apply existsb_eqb_In in Hin.
  rewrite Hin, (eqb_empty_false _ Hne). cbn [negb andb]. rewrite He.
  destruct (fetch w _); reflexivity.
Qed.

(** X20.  A POST by a verified caller to [/v1/spaces/<sid>/ingest], [sid]
    being one of the caller's space ids, non-empty and without '/', reaches
    the upstream whenever the body names no space that is not the
    caller's. *)
Theorem own_space_ingest_forwarded (w : World) (req : Request) (claims : UserClaims)
    (sid : string) :
  method req = "POST" ->
  verifyAuth w req = Return claims ->
  sid <> "" -> no_slash sid = true ->
  In sid (ngSpaceIds claims) ->
  enforceSpaceIds (body_object (body req)) (ngSpaceIds claims) = Return tt ->
  exists r,
    In (Fetch r) (handleProxy w req ("/v1/spaces/" +:+ sid +:+ "/ingest"))
    /\ up_url r = "https://api.neuralgraph.app/v1/spaces/" +:+ sid +:+ "/ingest"
    /\ up_method r = "POST"
    /\ up_body r = Some (body_object (body req)).
Proof.
  intros Hm Ha Hne Hns Hin He.
  pose proof (ingest_forwarded w req claims sid Hm Ha Hne Hns Hin He) as Hc.
  unfold contacted in Hc. apply existsb_exists in Hc as ([r| |] & Hr & Hf); try discriminate.
  exists r. split; [exact Hr|].
  apply ProxyCoverage.fetch_in_trace in Hr as (claims' & _ & -> & _).
  cbn [fetchOptions up_url up_method up_body]. rewrite Hm. repeat split; reflexivity.
Qed.

Lemma own_space_ingest_forwarded_witness :
  exists r,
    In (Fetch r)
      (handleProxy Scenario2.afterwards Scenario2.ingest_request
         ("/v1/spaces/" +:+ "new-space" +:+ "/ingest"))
    /\ up_url r = "https://api.neuralgraph.app/v1/spaces/" +:+ "new-space" +:+ "/ingest"
    /\ up_method r = "POST"
    /\ up_body r = Some (body_object (body Scenario2.ingest_request)).
Proof.
  apply (own_space_ingest_forwarded Scenario2.afterwards Scenario2.ingest_request
           Scenario2.alice_claims_after "new-space").
  - reflexivity.
  - reflexivity.
  - discriminate.
  - reflexivity.
  - right. left. reflexivity.
  - reflexivity.
Defined.

(** X21.  Creating a space and then using it: once [handleCreateSpace]
    has recorded claims ending in the new id [sid], a caller whose token
    carries those claims can POST to [/v1/spaces/<sid>/ingest] and is
    forwarded to the upstream. *)
Theorem created_space_is_usable (w w' : World) (aw : CreateSpace.AdminWorld)
    (req req' : Request) (uid sid : string) (granted : CreateSpace.NewClaims)
    (claims' : UserClaims) :
  In (CreateSpace.SetClaims uid granted) (CreateSpace.handleCreateSpace w aw req) ->
  List.last (CreateSpace.nc_ngSpaceIds granted) JNull = JStr sid ->
  no_slash sid = true ->
  verifyAuth w' req' = Return claims' ->
  JStr <$> ngSpaceIds claims' = CreateSpace.nc_ngSpaceIds granted ->
  method req' = "POST" ->
  enforceSpaceIds (body_object (body req')) (ngSpaceIds claims') = Return tt ->
  contacted (handleProxy w' req' ("/v1/spaces/" +:+ sid +:+ "/ingest")) = true.
Proof.
  intros Hset Hlast Hns Ha Hids Hm He.
  apply CreateSpaceFacts.claims_grow_shape in Hset as (old & newSpaceId & Hg & Ht).
  rewrite Hg in Hlast, Hids. rewrite List.last_last in Hlast. subst newSpaceId.
  assert (Hne : sid <> "").
  { cbn in Ht. intros ->. discriminate. }
  assert (Hin : In sid (ngSpaceIds claims')).
  { assert (H : In (JStr sid) (JStr <$> ngSpaceIds claims'))
      by (rewrite Hids; apply in_or_app; right; now left).
    apply in_map_iff in H as (x & [= ->] & Hx). exact Hx. }
  now apply (ingest_forwarded w' req' claims' sid).
Qed.

Lemma created_space_is_usable_witness :
  contacted
    (handleProxy Scenario2.afterwards Scenario2.ingest_request
       ("/v1/spaces/" +:+ "new-space" +:+ "/ingest")) = true.
Proof.
  apply (created_space_is_usable Scenario2.creating Scenario2.afterwards Scenario2.admin
           Scenario2.create_space_request Scenario2.ingest_request
           "alice-firebase-uid" "new-space"
           {| CreateSpace.nc_ngTenant := "tenant-1";
              CreateSpace.nc_ngUserId := "alice-uid";
              CreateSpace.nc_ngSpaceIds := [JStr "alice-space"; JStr "new-space"] |}
           Scenario2.alice_claims_after).
  - vm_compute. auto.
  - reflexivity.
  - reflexivity.
  - reflexivity.
  - reflexivity.
  - reflexivity.
  - reflexivity.
Defined.

End IngestFacts.

(** ** The service worker, from install to fetch *)

Module LifecycleFacts.
Import ServiceWorker ServiceWorkerLifecycle.

(** [CacheStorage] and [Response] are names for map and string types;
    rewriting with the map lemmas wants them unfolded. *)
Ltac unalias := unfold CacheStorage, Response in *.

(** [caches.match] answers from some cache. *)
Lemma caches_match_Some (caches : CacheStorage) (req : string) (r : Response) :
  caches_match caches req = Some r ->
  exists name, stored caches name req = Some r.
Proof.
  unfold caches_match, stored. unalias.
  destruct (List.filter _ (map_to_list caches)) as [|[name cache] rest] eqn:E; [discriminate|].
  intros Hr. exists name.
  assert (Hin : In (name, cache) (List.filter
                  (fun c => bool_decide (is_Some (c.2 !! req))) (map_to_list caches)))
    by (rewrite E; now left).
  apply filter_In in Hin as [Hin _].
  apply list_elem_of_In, elem_of_map_to_list in Hin. now rewrite Hin.
Qed.

(** When the caches agree on a request, [caches.match] finds it. *)
Lemma caches_match_agreed (caches : CacheStorage) (req : string) (r : Response) :
  (forall name r', stored caches name req = Some r' -> r' = r) ->
  (exists name, stored caches name req = Some r) ->
  caches_match caches req = Some r.
Proof.
  intros Hall (name & Hname). unfold caches_match. unfold stored in *. unalias.
  destruct (List.filter _ (map_to_list caches)) as [|[name' cache'] rest] eqn:E.
  - exfalso.
    destruct (caches !! name) as [cache|] eqn:Hc; [|discriminate]. cbn in Hname.
    assert (Hin : In (name, cache) (List.filter
                    (fun c => bool_decide (is_Some (c.2 !! req))) (map_to_list caches))).
    { apply filter_In. split.
      - now apply list_elem_of_In, elem_of_map_to_list.
      - apply bool_decide_eq_true. cbn. eauto. }
    now rewrite E in Hin.
  - assert (Hin : In (name', cache') (List.filter
                    (fun c => bool_decide (is_Some (c.2 !! req))) (map_to_list caches)))
      by (rewrite E; now left).
    apply filter_In in Hin as [Hin Hsome].
    apply list_elem_of_In, elem_of_map_to_list in Hin.
    apply bool_decide_eq_true in Hsome as [r' Hr']. cbn in Hr' |- *.
    rewrite Hr'. f_equal. apply (Hall name'). now rewrite Hin.
Qed.

Lemma caches_match_none (caches : CacheStorage) (req : string) :
  (forall name, stored caches name req = None) -> caches_match caches req = None.
Proof.
  intros Hnone. destruct (caches_match caches req) as [r|] eqn:E; [|reflexivity].
  apply caches_match_Some in E as (name & E). now rewrite Hnone in E.
Qed.

(** *** activate *)

Lemma activate_lookup (caches : CacheStorage) (name : string) :
  activate caches !! name = if decide (name = CACHE_NAME) then caches !! name else None.
Proof.
  unfold activate. unalias. destruct (decide (name = CACHE_NAME)) as [->|Hne].
  - destruct (caches !! CACHE_NAME) as [cache|] eqn:E.
    + now apply map_lookup_filter_Some.
    + apply map_lookup_filter_None. left. exact E.
  - apply map_lookup_filter_None. right. intros cache _. exact Hne.
Qed.

Lemma activate_only_current (caches : CacheStorage) : only_current (activate caches).
Proof.
  intros name [cache H]. rewrite activate_lookup in H.
  destruct (decide (name = CACHE_NAME)); [assumption|discriminate].
Qed.

(** *** install *)

Lemma store_all_lookup (g : string -> option Response) (entries : list (string * Response)) :
  (forall k v, In (k, v) entries -> g k = Some v) ->
  forall (cache : gmap string Response) (k : string),
    cache !! k = g k \/ (exists v, In (k, v) entries) ->
    store_all entries cache !! k = g k.
Proof.
  intros Hfun. induction entries as [|[k0 v0] rest IH]; intros cache k H.
  - destruct H as [H|(v & [])]. exact H.
  - cbn [store_all foldl]. apply IH.
    + intros k' v' Hin. apply Hfun. now right.
    + destruct (decide (k0 = k)) as [->|Hne].
      * left. cbn. rewrite lookup_insert_eq. symmetry. apply Hfun. now left.
      * destruct H as [H|(v & [Heq|Hin])].
        -- left. cbn. now rewrite lookup_insert_ne.
        -- inversion Heq; subst. now elim Hne.
        -- right. eauto.
Qed.

Lemma fetch_all_entries (network : string -> option Response) (is_ok : Response -> bool)
    (origin : string) (urls : list string) (entries : list (string * Response)) :
  fetch_all network is_ok origin urls = Some entries ->
  (forall k v, In (k, v) entries -> network k = Some v)
  /\ (forall url, In url urls ->
                  exists r, network (origin +:+ url) = Some r
                            /\ In (origin +:+ url, r) entries).
Proof.
  unfold fetch_all. intros H. apply mapM_Some in H.
  induction H as [|url [k v] urls entries Hhead _ [IH1 IH2]].
  - split; [intros k v []|intros url []].
  - destruct (network (origin +:+ url)) as [r|] eqn:Hn; [|discriminate].
    destruct (is_ok r); [|discriminate]. inversion Hhead; subst. split.
    + intros k' v' [[= <- <-]|Hin]; [exact Hn|now apply IH1].
    + intros url' [<-|Hin].
      * exists v. split; [exact Hn|now left].
      * destruct (IH2 url' Hin) as (r' & Hr' & Hin'). exists r'. split; [exact Hr'|now right].
Qed.

(** After a successful install and the activation, a static asset is
    stored, as the network gave it, in the one cache left. *)
Lemma installed_asset_stored (network : string -> option Response)
    (is_ok : Response -> bool) (origin : string) (caches caches' : CacheStorage)
    (asset : string) :
  install network is_ok origin caches = (true, caches') ->
  In asset STATIC_ASSETS ->
  exists r,
    network (origin +:+ asset) = Some r
    /\ stored (activate caches') CACHE_NAME (origin +:+ asset) = Some r.
Proof.
  unfold install.
  destruct (fetch_all network is_ok origin STATIC_ASSETS) as [entries|] eqn:E;
    [|discriminate].
  intros [= <-] Hin.
  apply fetch_all_entries in E as [Hfun Hall].
  destruct (Hall asset Hin) as (r & Hr & Hentry). exists r. split; [exact Hr|].
  unfold stored. rewrite activate_lookup.
  destruct (decide (CACHE_NAME = CACHE_NAME)); [|congruence]. unalias.
  rewrite lookup_insert_eq. cbn. rewrite <- Hr.
  apply (store_all_lookup network); [exact Hfun|]. right. eauto.
Qed.

Lemma static_asset_not_api (asset : string) :
  In asset STATIC_ASSETS -> JsString.startsWith asset "/api" = false.
Proof.
  unfold STATIC_ASSETS. cbn [In].
  intros H. repeat (destruct H as [<-|H]; [reflexivity|]). destruct H.
Qed.

(** X22.  Offline use of the app shell: once install succeeded and the
    worker was activated, a request for one of the static assets is
    answered with the response fetched at install, whenever the request is
    not a document request or the network is down. *)
Theorem installed_assets_served_from_cache (network0 network : string -> option Response)
    (is_ok : Response -> bool) (origin : string) (caches0 caches1 : CacheStorage)
    (event : FetchEvent) (asset : string) :
  install network0 is_ok origin caches0 = (true, caches1) ->
  In asset STATIC_ASSETS ->
  url_pathname event = asset ->
  request event = origin +:+ asset ->
  JsString.includes (url_hostname event) "googleapis" = false ->
  destination event <> "document" \/ network (request event) = None ->
  exists r,
    network0 (origin +:+ asset) = Some r
    /\ answer (on_fetch network (activate caches1) event) = Replied r.
Proof.
  intros Hinst Hin Hpath Hreq Hhost Hoff.
  destruct (installed_asset_stored _ _ _ _ _ _ Hinst Hin) as (r & Hr & Hstored).
  exists r. split; [exact Hr|].
  assert (Hmatch : caches_match (activate caches1) (request event) = Some r).
  { rewrite Hreq. apply caches_match_agreed; [|eauto].
    intros name r' H. unfold stored in H.
    destruct (activate caches1 !! name) as [cache|] eqn:Hc; [|discriminate].
    assert (name = CACHE_NAME) by (apply (activate_only_current caches1); eauto).
    subst name. unfold stored in Hstored. rewrite Hc in Hstored. cbn in H, Hstored.
    congruence. }
  unfold on_fetch. rewrite Hpath, (static_asset_not_api _ Hin), Hhost, Hmatch. cbn [orb].
  destruct (String.eqb_spec (destination event) "document") as [Hd|Hd].
  - destruct Hoff as [Hoff|Hoff]; [contradiction|]. now rewrite Hoff.
  - reflexivity.
Qed.

Lemma installed_assets_served_from_cache_witness :
  let network0 := fun url : string => Some ("content of " +:+ url) in
  let offline := fun _ : string => @None Response in
  let event := {| url_pathname := "/sandbox.html";
                  url_hostname := "neuralgraph.app";
                  destination := "document";
                  request := "https://neuralgraph.app" +:+ "/sandbox.html" |} in
  exists r,
    network0 ("https://neuralgraph.app" +:+ "/sandbox.html") = Some r
    /\ answer (on_fetch offline
                 (activate (install network0 (fun _ => true) "https://neuralgraph.app" ∅).2)
                 event) = Replied r.
Proof.
  cbv zeta.
  apply (installed_assets_served_from_cache
           (fun url => Some ("content of " +:+ url)) (fun _ => None) (fun _ => true)
           "https://neuralgraph.app" ∅
           (install (fun url => Some ("content of " +:+ url)) (fun _ => true)
              "https://neuralgraph.app" ∅).2
           {| url_pathname := "/sandbox.html"; url_hostname := "neuralgraph.app";
              destination := "document";
              request := "https://neuralgraph.app" +:+ "/sandbox.html" |}
           "/sandbox.html").
  - reflexivity.
  - left. reflexivity.
  - reflexivity.
  - reflexivity.
  - reflexivity.
  - right. reflexivity.
Defined.

(** *** fetch *)

Lemma stored_cache_put (caches : CacheStorage) (k : string) (resp : Response)
    (name req : string) :
  stored (cache_put caches CACHE_NAME k resp) name req
  = if decide (name = CACHE_NAME /\ req = k) then Some resp else stored caches name req.
Proof.
  unfold stored, cache_put. unalias.
  destruct (decide (name = CACHE_NAME)) as [->|Hn].
  - rewrite lookup_insert_eq. cbn.
    destruct (decide (req = k)) as [->|Hr].
    + rewrite lookup_insert_eq. now rewrite decide_True by auto.
    + rewrite lookup_insert_ne by congruence. rewrite decide_False by tauto.
      destruct (caches !! CACHE_NAME); [reflexivity|apply lookup_empty].
  - rewrite lookup_insert_ne by congruence. now rewrite decide_False by tauto.
Qed.

(** X23.  The fetch listener changes at most one stored response: the one
    for the event's request in [CACHE_NAME].  Every other entry, of every
    cache, is left as it was. *)
Theorem on_fetch_alters_one_entry (network : string -> option Response)
    (caches : CacheStorage) (event : FetchEvent) (name req : string) :
  name <> CACHE_NAME \/ req <> request event ->
  stored (caches_after (on_fetch network caches event)) name req = stored caches name req.
Proof.
  intros H. unfold on_fetch.
  destruct (_ || _); [reflexivity|].
  destruct (String.eqb _ "document").
  - destruct (network (request event)); [|reflexivity]. cbn [caches_after].
    rewrite stored_cache_put. now rewrite decide_False by tauto.
  - destruct (caches_match caches (request event)); reflexivity.
Qed.

Lemma on_fetch_alters_one_entry_witness :
  let caches : CacheStorage :=
    {[ CACHE_NAME := {[ "https://neuralgraph.app/manifest.json" := "manifest" ]} ]} in
  let event := {| url_pathname := "/sandbox.html"; url_hostname := "neuralgraph.app";
                  destination := "document";
                  request := "https://neuralgraph.app/sandbox.html" |} in
  stored (caches_after (on_fetch (fun _ => Some "page") caches event))
    CACHE_NAME "https://neuralgraph.app/manifest.json"
  = stored caches CACHE_NAME "https://neuralgraph.app/manifest.json".
Proof.
  cbv zeta. apply on_fetch_alters_one_entry. right. discriminate.
Defined.



End LifecycleFacts.

(** ** The Cloud Function as a whole *)

Module ApiFacts.
Import Proxy Api.



End ApiFacts.

(** ** Growing claims never takes a permission away *)

Module MonotoneFacts.
Import Proxy EnforceFacts.

Lemma includes_id_mono (allowed allowed' : list string) (v : json) :
  (forall s, In s allowed -> In s allowed') ->
  includes_id allowed v = true -> includes_id allowed' v = true.
Proof.
  intros Hsub. rewrite !includes_id_spec. intros (s & -> & Hs).
  exists s. split; [reflexivity|auto].
Qed.

(** X26.  A body that [enforceSpaceIds] accepts for a list of space ids
    is accepted for every list that holds those ids, so adding a space to
    a caller's claims never turns an accepted request into a refused
    one. *)
Theorem enforceSpaceIds_monotone (body : json) (allowed allowed' : list string) :
  (forall s, In s allowed -> In s allowed') ->
  enforceSpaceIds body allowed = Return tt ->
  enforceSpaceIds body allowed' = Return tt.
Proof.
  intros Hsub. unfold enforceSpaceIds.
  assert (Hfirst : forall items,
    Nat.ltb 0 (List.length
      (List.filter (fun id => negb (includes_id allowed id)) items)) = false ->
    Nat.ltb 0 (List.length
      (List.filter (fun id => negb (includes_id allowed' id)) items)) = false).
  { intros items H. apply not_true_iff_false. apply not_true_iff_false in H.
    intros H'. apply H. apply filter_nonempty in H' as (x & Hx & Hneg).
    apply filter_nonempty. exists x. split; [exact Hx|].
    apply negb_true_iff in Hneg. apply negb_true_iff.
    destruct (includes_id allowed x) eqn:E; [|reflexivity].
    apply (includes_id_mono _ _ _ Hsub) in E. congruence. }
  assert (Hsecond : forall s,
    negb (includes_id allowed (JStr s)) = false ->
    negb (includes_id allowed' (JStr s)) = false).
  { intros s H. apply negb_false_iff in H. apply negb_false_iff.
    now apply (includes_id_mono _ _ _ Hsub). }
  destruct (get_prop body "space_ids") as [[| | | |items|]|];
    cbn -[includes_id Nat.ltb List.filter];
    try (destruct (Nat.ltb 0 _) eqn:E1; [discriminate|rewrite (Hfirst _ E1)];
         cbn -[includes_id Nat.ltb List.filter]);
    destruct (get_prop body "space_id") as [[| | |sid| |]|];
    cbn -[includes_id Nat.ltb List.filter]; try reflexivity;
    (destruct (negb (includes_id allowed (JStr sid))) eqn:E2;
       [discriminate|now rewrite (Hsecond _ E2)]).
Qed.

Lemma enforceSpaceIds_monotone_witness :
  enforceSpaceIds
    (JObj {[ "space_ids" := JArr [JStr "alice-space"]; "space_id" := JStr "alice-space" ]})
    ["alice-space"; "new-space"] = Return tt.
Proof.
  apply (enforceSpaceIds_monotone _ ["alice-space"]).
  - intros s [<-|[]]. now left.
  - reflexivity.
Defined.

End MonotoneFacts.
